(** * scripts/xivapi_calls.py: recipe and buff extraction for the crafting solver

    A shallow embedding of the script.  Python values are modelled as the
    script uses them: TypedDict declarations become records, the untyped
    JSON of the buff search becomes a [json] tree whose objects are finite
    maps, dictionaries that the script fills in place become [gmap]s that are
    threaded through, and every Python exception the script can run into is
    an explicit [Raise]. *)

From Stdlib Require Import ZArith Lia.
From Stdlib Require Import Floats.SpecFloat.
From stdpp Require Import base option list gmap strings sorting.

Local Open Scope Z_scope.

(** ** Exceptions and results *)

Inductive exn :=
  | KeyError | TypeError | AttributeError | ValueError
  | OverflowError | ZeroDivisionError | JSONDecodeError | HTTPError.

Inductive result (A : Type) :=
  | Return (a : A)
  | Raise (e : exn).
Arguments Return {A} a.
Arguments Raise {A} e.

#[global] Instance result_ret : MRet result := fun A a => Return a.
#[global] Instance result_bind : MBind result := fun A B f m =>
  match m with
  | Return a => f a
  | Raise e => Raise e
  end.

#[global] Instance result_fmap : FMap result := fun A B f m =>
  match m with
  | Return a => Return (f a)
  | Raise e => Raise e
  end.

Definition raises {A} (m : result A) : bool :=
  match m with Return _ => false | Raise _ => true end.

(** ** Python numbers

    [int] is unbounded, [float] is IEEE 754 binary64, taken from the
    specification of floats that comes with the prover ([spec_float], with
    53 bits of precision and infinities at exponent 1024). *)

Module PyNum.

Definition prec : Z := 53.
Definition emax : Z := 1024.

Inductive t :=
  | PInt (z : Z)
  | PFloat (f : spec_float).

(** [float(z)]: the nearest double, ties to even; an [int] beyond the range
    of doubles raises [OverflowError]. *)
Definition float_of_int (z : Z) : result spec_float :=
  match binary_normalize prec emax z 0 false with
  | S754_infinity _ => Raise OverflowError
  | f => Return f
  end.

Definition is_zero (f : spec_float) : bool :=
  match f with S754_zero _ => true | _ => false end.

(** [float / float] raises on a zero divisor and is the IEEE quotient
    otherwise. *)
Definition float_truediv (f g : spec_float) : result spec_float :=
  if is_zero g then Raise ZeroDivisionError else Return (SFdiv prec emax f g).

(** [int / int] is the correctly rounded quotient of the two integers,
    whatever their size: the division of [spec_float] is run on the integers
    themselves as mantissas at exponent 0 and rounds once. *)
Definition int_truediv (a b : Z) : result spec_float :=
  match a, b with
  | _, Z0 => Raise ZeroDivisionError
  | Z0, _ => Return (S754_zero (b <? 0))
  | _, _ =>
      match SFdiv prec emax
              (S754_finite (a <? 0) (Z.to_pos (Z.abs a)) 0)
              (S754_finite (b <? 0) (Z.to_pos (Z.abs b)) 0) with
      | S754_infinity _ => Raise OverflowError
      | q => Return q
      end
  end.

(** [x * y] *)
Definition mul (x y : t) : result t :=
  match x, y with
  | PInt a, PInt b => Return (PInt (a * b))
  | PInt a, PFloat g => f ← float_of_int a; Return (PFloat (SFmul prec emax f g))
  | PFloat f, PInt b => g ← float_of_int b; Return (PFloat (SFmul prec emax f g))
  | PFloat f, PFloat g => Return (PFloat (SFmul prec emax f g))
  end.

(** [x / y] *)
Definition truediv (x y : t) : result t :=
  match x, y with
  | PInt a, PInt b => PFloat <$> int_truediv a b
  | PInt a, PFloat g => f ← float_of_int a; PFloat <$> float_truediv f g
  | PFloat f, PInt b => g ← float_of_int b; PFloat <$> float_truediv f g
  | PFloat f, PFloat g => PFloat <$> float_truediv f g
  end.

(** [math.floor(x)]: an [int] is returned as it is, a finite double gives
    the largest integer below it, NaN and the infinities raise. *)
Definition floor (x : t) : result Z :=
  match x with
  | PInt z => Return z
  | PFloat S754_nan => Raise ValueError
  | PFloat (S754_infinity _) => Raise OverflowError
  | PFloat (S754_zero _) => Return 0
  | PFloat (S754_finite s m e) =>
      Return match e with
             | Zneg p => cond_Zopp s (Zpos m) / 2 ^ Zpos p
             | _ => cond_Zopp s (Zpos m) * 2 ^ e
             end
  end.

End PyNum.

(** ** Type definitions of the script *)

Module LocaleNames.
Record t := mk { en : string; de : string; fr : string; ja : string }.
End LocaleNames.

(** [RecipeType]: [stars] is the one key that may be missing. *)
Module RecipeType.
Record t := mk {
  id : Z;
  name : LocaleNames.t;
  baseLevel : Z;
  level : Z;
  difficulty : Z;
  durability : Z;
  maxQuality : Z;
  suggestedCraftsmanship : Z;
  suggestedControl : Z;
  progressDivider : Z;
  progressModifier : Z;
  qualityDivider : Z;
  qualityModifier : Z;
  stars : option Z
}.
End RecipeType.

(** [RecipeJSONLevelTableType]: [Difficulty] is declared [int | float]. *)
Module RecipeJSONLevelTableType.
Record t := mk {
  ClassJobLevel : Z;
  Stars : Z;
  ID : Z;
  Difficulty : PyNum.t;
  Durability : Z;
  Quality : Z;
  SuggestedCraftsmanship : Z;
  SuggestedControl : Z;
  ProgressDivider : Z;
  ProgressModifier : Z;
  QualityDivider : Z;
  QualityModifier : Z
}.
End RecipeJSONLevelTableType.

(** [RecipeJSONType].  The three factors are declared [float], which admits
    [int] as well; the API sends integers.  [ClassJob] is the value of
    [recipe["ClassJob"]["NameEnglish"]], or [None] when [ClassJob] is null and
    the subscript raises.  [RecipeLevelTable] is [None] for a null table. *)
Module RecipeJSONType.
Record t := mk {
  ID : Z;
  Name_en : string;
  Name_de : string;
  Name_fr : string;
  Name_ja : string;
  ClassJob : option string;
  DurabilityFactor : PyNum.t;
  QualityFactor : PyNum.t;
  DifficultyFactor : PyNum.t;
  RequiredControl : Z;
  RequiredCraftsmanship : Z;
  RecipeLevelTable : option RecipeJSONLevelTableType.t
}.
End RecipeJSONType.

(** ** construct_recipe_json *)

(** [math.floor(base * factor / 100)] *)
Definition floor_scaled (base factor : PyNum.t) : result Z :=
  p ← PyNum.mul base factor;
  q ← PyNum.truediv p (PyNum.PInt 100);
  PyNum.floor q.

(** The function returns [None] for a record without level table, and the
    recipe dictionary otherwise; the three scaled fields are evaluated in the
    order of the dictionary display. *)
Definition construct_recipe_json (original_recipe : RecipeJSONType.t)
  : result (option RecipeType.t) :=
  match RecipeJSONType.RecipeLevelTable original_recipe with
  | None => Return None
  | Some table =>
      difficulty ← floor_scaled (RecipeJSONLevelTableType.Difficulty table)
                     (RecipeJSONType.DifficultyFactor original_recipe);
      durability ← floor_scaled (PyNum.PInt (RecipeJSONLevelTableType.Durability table))
                     (RecipeJSONType.DurabilityFactor original_recipe);
      maxQuality ← floor_scaled (PyNum.PInt (RecipeJSONLevelTableType.Quality table))
                     (RecipeJSONType.QualityFactor original_recipe);
      Return (Some {|
        RecipeType.id := RecipeJSONType.ID original_recipe;
        RecipeType.name := {|
          LocaleNames.en := RecipeJSONType.Name_en original_recipe;
          LocaleNames.de := RecipeJSONType.Name_de original_recipe;
          LocaleNames.fr := RecipeJSONType.Name_fr original_recipe;
          LocaleNames.ja := RecipeJSONType.Name_ja original_recipe |};
        RecipeType.baseLevel := RecipeJSONLevelTableType.ClassJobLevel table;
        RecipeType.level := RecipeJSONLevelTableType.ID table;
        RecipeType.difficulty := difficulty;
        RecipeType.durability := durability;
        RecipeType.maxQuality := maxQuality;
        RecipeType.suggestedCraftsmanship :=
          RecipeJSONLevelTableType.SuggestedCraftsmanship table;
        RecipeType.suggestedControl := RecipeJSONLevelTableType.SuggestedControl table;
        RecipeType.progressDivider := RecipeJSONLevelTableType.ProgressDivider table;
        RecipeType.progressModifier := RecipeJSONLevelTableType.ProgressModifier table;
        RecipeType.qualityDivider := RecipeJSONLevelTableType.QualityDivider table;
        RecipeType.qualityModifier := RecipeJSONLevelTableType.QualityModifier table;
        RecipeType.stars :=
          if bool_decide (RecipeJSONLevelTableType.Stars table ≠ 0)
          then Some (RecipeJSONLevelTableType.Stars table) else None
      |})
  end.

(** ** The outside world

    The script talks to XIVAPI, prints to the standard output and writes
    files.  Requests are recorded as they are issued. *)

Inductive request :=
  | GetRecipeIndex
  | GetRecipePage (page_id : Z)
  | PostSearch (buff_name : string).

(** The pagination envelope of [GET /Recipe].  A field that is [None] is a
    key the JSON object lacks, so that subscripting it raises [KeyError];
    [PageTotal] is a JSON number. *)
Module Pagination.
Record t := mk { PageTotal : option PyNum.t }.
End Pagination.

Module RecipeIndex.
Record t := mk { Pagination : option Pagination.t }.
End RecipeIndex.

(** A page of [GET /Recipe?page=..]. *)
Module RecipePage.
Record t := mk { Results : option (list RecipeJSONType.t) }.
End RecipePage.

(** A [requests.Response]: the status code and the body, [None] when the
    body is not JSON and [r.json()] raises. *)
Module Response.
Record t (A : Type) := mk { status_code : Z; json : option A }.
Arguments mk {A} _ _.
Arguments status_code {A} _.
Arguments json {A} _.
End Response.

(** ** get_total_pages *)

(** [int(x)] of a JSON number: an [int] as it is, a double truncated towards
    zero, NaN and the infinities raise. *)
Definition py_int (x : PyNum.t) : result Z :=
  match x with
  | PyNum.PInt z => Return z
  | PyNum.PFloat S754_nan => Raise ValueError
  | PyNum.PFloat (S754_infinity _) => Raise OverflowError
  | PyNum.PFloat (S754_zero _) => Return 0
  | PyNum.PFloat (S754_finite s m e) =>
      Return (cond_Zopp s match e with
                          | Zneg p => Zpos m / 2 ^ Zpos p
                          | _ => Zpos m * 2 ^ e
                          end)
  end.

(** The function issues its one request and converts
    [recipe_data["Pagination"]["PageTotal"]]. *)
Definition get_total_pages (get_index : Response.t RecipeIndex.t)
  : list request * result Z :=
  ([GetRecipeIndex],
   match Response.json get_index with
   | None => Raise JSONDecodeError
   | Some recipe_data =>
       match RecipeIndex.Pagination recipe_data with
       | None => Raise KeyError
       | Some pagination =>
           match Pagination.PageTotal pagination with
           | None => Raise KeyError
           | Some total => py_int total
           end
       end
   end).

(** ** api_call *)

(** The state the page tasks share and act on: the [recipes] dictionary, the
    standard output and the requests sent so far. *)
Record world := mk_world {
  recipes : gmap string (list RecipeType.t);
  stdout : list string;
  requests : list request
}.

(** [recipes[key].append(constructed_recipe)] on a [defaultdict(list)] *)
Definition append_recipe (key : string) (r : RecipeType.t)
    (recipes : gmap string (list RecipeType.t)) : gmap string (list RecipeType.t) :=
  <[key := default [] (recipes !! key) ++ [r]]> recipes.

(** The loop over [page_data["Results"]].  A constructed recipe is a
    dictionary with thirteen keys or more, hence true as a condition; [None]
    is false.  An exception leaves the loop with what was appended so far. *)
Fixpoint api_call_results (results : list RecipeJSONType.t)
    (recipes : gmap string (list RecipeType.t))
  : gmap string (list RecipeType.t) * result unit :=
  match results with
  | [] => (recipes, Return ())
  | recipe :: results =>
      match RecipeJSONType.ClassJob recipe with
      | None => (recipes, Raise TypeError)
      | Some key =>
          match construct_recipe_json recipe with
          | Raise e => (recipes, Raise e)
          | Return None => api_call_results results recipes
          | Return (Some constructed_recipe) =>
              api_call_results results (append_recipe key constructed_recipe recipes)
          end
      end
  end.

Definition too_many_requests : string := "Too many requests sent to XIVAPI!".

(** [api_call(page_id, recipes)]: the body is parsed before the status code
    is looked at, and the loop over the results runs whatever the status. *)
Definition api_call (get_page : Z → Response.t RecipePage.t) (page_id : Z) (w : world)
  : world * result unit :=
  let r := get_page page_id in
  let sent := requests w ++ [GetRecipePage page_id] in
  match Response.json r with
  | None => (mk_world (recipes w) (stdout w) sent, Raise JSONDecodeError)
  | Some page_data =>
      let out := if bool_decide (Response.status_code r = 429)
                 then stdout w ++ [too_many_requests] else stdout w in
      match RecipePage.Results page_data with
      | None => (mk_world (recipes w) out sent, Raise KeyError)
      | Some results =>
          let '(recipes', res) := api_call_results results (recipes w) in
          (mk_world recipes' out sent, res)
      end
  end.

(** ** handle_api_calls *)

(** What the main thread does to its page threads. *)
Inductive thread_event :=
  | Start (page_id : Z)
  | Join (page_id : Z).

(** The loop of [handle_api_calls] as the main thread runs it: [threads] is
    the list of the same name. *)
Fixpoint handle_api_calls_loop (pages : list Z) (threads : list Z) : list thread_event :=
  match pages with
  | [] => Join <$> threads
  | i :: pages =>
      Start i ::
      if bool_decide (i mod 20 = 0)
      then (Join <$> (threads ++ [i])) ++ handle_api_calls_loop pages []
      else handle_api_calls_loop pages (threads ++ [i])
  end.

(** [range(1, pages_amount + 1)] is empty for a count below 1. *)
Definition handle_api_calls_events (pages_amount : Z) : list thread_event :=
  handle_api_calls_loop (seqZ 1 pages_amount) [].

(** The threads started and not yet joined after a run of events. *)
Definition in_flight_step (running : list Z) (e : thread_event) : list Z :=
  match e with
  | Start i => running ++ [i]
  | Join i => filter (λ j, j ≠ i) running
  end.

Definition in_flight_from (running : list Z) (events : list thread_event) : list Z :=
  foldl in_flight_step running events.

Definition in_flight (events : list thread_event) : list Z :=
  in_flight_from [] events.

(** The dictionary [handle_api_calls] returns when the page tasks run one
    after the other in page order.  An exception that escapes [api_call]
    ends that thread only: the main thread joins it and goes on. *)
Definition run_page (get_page : Z → Response.t RecipePage.t) (w : world) (page_id : Z)
  : world :=
  fst (api_call get_page page_id w).

Definition run_pages (get_page : Z → Response.t RecipePage.t) (pages : list Z) (w : world)
  : world :=
  foldl (run_page get_page) w pages.

Definition handle_api_calls (get_page : Z → Response.t RecipePage.t) (pages_amount : Z)
    (w : world) : world :=
  run_pages get_page (seqZ 1 pages_amount) (mk_world ∅ (stdout w) (requests w)).

(** ** sorted

    [sorted(xs, key=f)] is a stable sort that compares keys with [<] only.
    A stable sort has one possible result, so the insertion sort below
    returns the list the built-in returns. *)

Section Sorted.
Context {A K : Type} (lt : K → K → bool) (key : A → K).

(** [x] comes before the elements sorted so far, so it stays in front of
    those with an equal key. *)
Fixpoint sorted_insert (x : A) (l : list A) : list A :=
  match l with
  | [] => [x]
  | y :: l' => if lt (key y) (key x) then y :: sorted_insert x l' else x :: l
  end.

Fixpoint sorted (l : list A) : list A :=
  match l with
  | [] => []
  | x :: l' => sorted_insert x (sorted l')
  end.
End Sorted.

(** ** JSON values of the buff search *)

(** No induction on JSON values is needed below. *)
#[local] Unset Elimination Schemes.
Inductive json :=
  | JNull
  | JBool (b : bool)
  | JNum (n : PyNum.t)
  | JStr (s : string)
  | JList (l : list json)
  | JObj (o : gmap string json).
#[local] Set Elimination Schemes.

Definition is_None (v : json) : bool :=
  match v with JNull => true | _ => false end.

(** [v.get(k, dflt)]: only a dictionary has the method. *)
Definition get (v : json) (k : string) (dflt : json) : result json :=
  match v with
  | JObj o => Return (default dflt (o !! k))
  | _ => Raise AttributeError
  end.

(** The body of the search response: [Results] is [None] when the key is
    missing, and a JSON array otherwise. *)
Module SearchPage.
Record t := mk { Results : option (list json) }.
End SearchPage.

(** ** extract_buff_data *)

(** [item.get("Bonuses", {}).get(stat, {}).get(field)] *)
Definition bonus (item : json) (stat field : string) : result json :=
  bonuses ← get item "Bonuses" (JObj ∅);
  sub ← get bonuses stat (JObj ∅);
  get sub field JNull.

(** The dictionary display of the inner loop, evaluated in its order. *)
Definition new_item (item : json) (hq : bool) : result (gmap string json) :=
  id ← get item "ID" JNull;
  cp_percent ← bonus item "CP" "Value";
  cp_value ← bonus item "CP" "Max";
  craft_percent ← bonus item "Craftsmanship" "Value";
  craft_value ← bonus item "Craftsmanship" "Max";
  control_percent ← bonus item "Control" "Value";
  control_value ← bonus item "Control" "Max";
  en ← get item "Name_en" JNull;
  de ← get item "Name_de" JNull;
  fr ← get item "Name_fr" JNull;
  ja ← get item "Name_ja" JNull;
  Return (list_to_map [
    ("id", id);
    ("cp_percent", cp_percent);
    ("cp_value", cp_value);
    ("craft_percent", craft_percent);
    ("craft_value", craft_value);
    ("control_percent", control_percent);
    ("control_value", control_value);
    ("hq", JBool hq);
    ("name", JObj (list_to_map [("en", en); ("de", de); ("fr", fr); ("ja", ja)]))
  ]).

(** [{k: v for k, v in new_item.items() if v is not None}] *)
Definition drop_None (d : gmap string json) : gmap string json :=
  filter (λ kv, is_None kv.2 = false) d.

(** The two turns of [for hq in [False, True]] for one item. *)
Definition buff_variants (item : json) : result (list (gmap string json)) :=
  nq ← new_item item false;
  hq ← new_item item true;
  Return [drop_None nq; drop_None hq].

(** The loop over the results, appending to [buffs]. *)
Fixpoint extract_results (results : list json) (buffs : list (gmap string json))
  : result (list (gmap string json)) :=
  match results with
  | [] => Return buffs
  | item :: results =>
      variants ← buff_variants item;
      extract_results results (buffs ++ variants)
  end.

(** [raise_for_status] raises on the 4xx and 5xx codes. *)
Definition raise_for_status {A} (r : Response.t A) : result unit :=
  if bool_decide (400 ≤ Response.status_code r < 600) then Raise HTTPError else Return ().

Definition extract_buff_data (post : string → Response.t SearchPage.t) (buff_name : string)
  : list request * result (list (gmap string json)) :=
  let request := post buff_name in
  ([PostSearch buff_name],
   _ ← raise_for_status request;
   match Response.json request with
   | None => Raise JSONDecodeError
   | Some page =>
       match SearchPage.Results page with
       | None => Raise KeyError
       | Some results => extract_results results []
       end
   end).

(** ** Sorting the buffs in the main program *)

(** The key [(x["id"], x["hq"])].  A variant whose item had no [ID] has no
    ["id"] key and the subscript raises.  [Buffs] declares [id: int] and
    [hq: bool]; a key of another JSON type is outside the model, which stops
    with [TypeError] there. *)
Definition buff_key (x : gmap string json) : result (Z * bool) :=
  match x !! "id" with
  | None => Raise KeyError
  | Some (JNum (PyNum.PInt id)) =>
      match x !! "hq" with
      | None => Raise KeyError
      | Some (JBool hq) => Return (id, hq)
      | Some _ => Raise TypeError
      end
  | Some _ => Raise TypeError
  end.

(** [<] on the tuples: the first components that differ decide, and
    [False < True]. *)
Definition key_lt (a b : Z * bool) : bool :=
  if bool_decide (a.1 = b.1) then negb a.2 && b.2 else a.1 <? b.1.

(** The keys are computed for the whole list before anything is compared. *)
Fixpoint buff_keys (buffs : list (gmap string json))
  : result (list ((Z * bool) * gmap string json)) :=
  match buffs with
  | [] => Return []
  | x :: buffs =>
      k ← buff_key x;
      rest ← buff_keys buffs;
      Return ((k, x) :: rest)
  end.

Definition sorted_buffs (buffs : list (gmap string json))
  : result (list (gmap string json)) :=
  keyed ← buff_keys buffs;
  Return (snd <$> sorted key_lt fst keyed).

(** The list that one turn of [for buff_name in buff_types] hands to
    [save_buffs_to_file]. *)
Definition persisted_buffs (post : string → Response.t SearchPage.t) (buff_name : string)
  : result (list (gmap string json)) :=
  buffs ← (extract_buff_data post buff_name).2;
  sorted_buffs buffs.

(** ** Files

    Both kinds of file are written by [json.dump(value, my_file, indent=2,
    sort_keys=True, ensure_ascii=False)] on a file opened with mode ["w"].
    The text is a function of the value dumped, so a file is kept as the
    value it was dumped from: equal contents are equal texts. *)

Inductive file_content :=
  | RecipeFile (class_recipes : list RecipeType.t)
  | BuffFile (buffs : list (gmap string json)).

(** ** save_data_to_json *)

Section Persistence.
(** The directory of the repository. *)
Variable PARENT_DIR : string.

Definition recipe_path (class_job : string) : string :=
  PARENT_DIR +:+ "/app/data/recipedb/" +:+ class_job +:+ ".json".

(** One turn of the loop: sort by ["id"], open the file for writing (which
    replaces what it held) and dump. *)
Definition save_class (files : gmap string file_content)
    (class_job : string) (class_recipes : list RecipeType.t)
  : gmap string file_content :=
  let class_recipes := sorted Z.ltb RecipeType.id class_recipes in
  <[recipe_path class_job := RecipeFile class_recipes]> files.

(** The loop over [recipes.items()]. *)
Definition save_items (items : list (string * list RecipeType.t))
    (files : gmap string file_content) : gmap string file_content :=
  foldl (λ files item, save_class files item.1 item.2) files items.

(** The directory is made first, so that every [open] succeeds; the files
    are all the model keeps of the file system.  The loop visits every
    item of the dictionary once and each turn writes a file of its own, so
    the order of the visits does not show in the result. *)
Definition save_data_to_json (recipes : gmap string (list RecipeType.t))
    (files : gmap string file_content) : gmap string file_content :=
  save_items (map_to_list recipes) files.

(** ** save_buffs_to_file and the buff part of the main program *)

Definition buff_path (buff_name : string) : string :=
  PARENT_DIR +:+ "/app/data/buffs/" +:+ buff_name +:+ ".json".

Definition save_buffs_to_file (buffs : list (gmap string json)) (buff_name : string)
    (files : gmap string file_content) : gmap string file_content :=
  <[buff_path buff_name := BuffFile buffs]> files.

(** One turn of [for buff_name in buff_types]. *)
Definition main_buff (post : string → Response.t SearchPage.t) (buff_name : string)
    (files : gmap string file_content) : result (gmap string file_content) :=
  buffs ← persisted_buffs post buff_name;
  Return (save_buffs_to_file buffs buff_name files).
End Persistence.

Definition buff_types : list string := ["Medicine"; "Meal"].

(** ** Vocabulary of the statements *)

(** [located D N m l]: the integer [m] and the location [l] place the
    rational [N / D] in [m, m + 1), as the rounding of [spec_float] reads
    them. *)
Definition located (D N m : Z) (l : location) : Prop :=
  match l with
  | loc_Exact => N = m * D
  | loc_Inexact Lt => m * D < N ∧ 2 * (N - m * D) < D
  | loc_Inexact Eq => 2 * (N - m * D) = D
  | loc_Inexact Gt => D < 2 * (N - m * D) ∧ N < (m + 1) * D
  end.

(** The products for which the double quotient still has six fractional
    bits, that is [|base * factor| / 100 < 2 ^ 47]. *)
Definition exact_range (base factor : Z) : Prop :=
  Z.abs (base * factor) < 100 * 2 ^ 47.

(** Sample records. *)
Definition sample_table : RecipeJSONLevelTableType.t := {|
  RecipeJSONLevelTableType.ClassJobLevel := 90;
  RecipeJSONLevelTableType.Stars := 2;
  RecipeJSONLevelTableType.ID := 580;
  RecipeJSONLevelTableType.Difficulty := PyNum.PInt 99;
  RecipeJSONLevelTableType.Durability := 70;
  RecipeJSONLevelTableType.Quality := 10920;
  RecipeJSONLevelTableType.SuggestedCraftsmanship := 3180;
  RecipeJSONLevelTableType.SuggestedControl := 3080;
  RecipeJSONLevelTableType.ProgressDivider := 130;
  RecipeJSONLevelTableType.ProgressModifier := 80;
  RecipeJSONLevelTableType.QualityDivider := 115;
  RecipeJSONLevelTableType.QualityModifier := 70
|}.

Definition sample_recipe : RecipeJSONType.t := {|
  RecipeJSONType.ID := 34567;
  RecipeJSONType.Name_en := "Rarefied Sykon Bavarois";
  RecipeJSONType.Name_de := "Sykon-Bavarois";
  RecipeJSONType.Name_fr := "Bavarois au sykon";
  RecipeJSONType.Name_ja := "Sykon Bavarois";
  RecipeJSONType.ClassJob := Some "Culinarian";
  RecipeJSONType.DurabilityFactor := PyNum.PInt 100;
  RecipeJSONType.QualityFactor := PyNum.PInt 80;
  RecipeJSONType.DifficultyFactor := PyNum.PInt 101;
  RecipeJSONType.RequiredControl := 0;
  RecipeJSONType.RequiredCraftsmanship := 0;
  RecipeJSONType.RecipeLevelTable := Some sample_table
|}.

Definition with_table (table : option RecipeJSONLevelTableType.t) (r : RecipeJSONType.t)
  : RecipeJSONType.t := {|
  RecipeJSONType.ID := RecipeJSONType.ID r;
  RecipeJSONType.Name_en := RecipeJSONType.Name_en r;
  RecipeJSONType.Name_de := RecipeJSONType.Name_de r;
  RecipeJSONType.Name_fr := RecipeJSONType.Name_fr r;
  RecipeJSONType.Name_ja := RecipeJSONType.Name_ja r;
  RecipeJSONType.ClassJob := RecipeJSONType.ClassJob r;
  RecipeJSONType.DurabilityFactor := RecipeJSONType.DurabilityFactor r;
  RecipeJSONType.QualityFactor := RecipeJSONType.QualityFactor r;
  RecipeJSONType.DifficultyFactor := RecipeJSONType.DifficultyFactor r;
  RecipeJSONType.RequiredControl := RecipeJSONType.RequiredControl r;
  RecipeJSONType.RequiredCraftsmanship := RecipeJSONType.RequiredCraftsmanship r;
  RecipeJSONType.RecipeLevelTable := table
|}.

Definition with_difficulty (d : PyNum.t) (t : RecipeJSONLevelTableType.t)
  : RecipeJSONLevelTableType.t := {|
  RecipeJSONLevelTableType.ClassJobLevel := RecipeJSONLevelTableType.ClassJobLevel t;
  RecipeJSONLevelTableType.Stars := RecipeJSONLevelTableType.Stars t;
  RecipeJSONLevelTableType.ID := RecipeJSONLevelTableType.ID t;
  RecipeJSONLevelTableType.Difficulty := d;
  RecipeJSONLevelTableType.Durability := RecipeJSONLevelTableType.Durability t;
  RecipeJSONLevelTableType.Quality := RecipeJSONLevelTableType.Quality t;
  RecipeJSONLevelTableType.SuggestedCraftsmanship :=
    RecipeJSONLevelTableType.SuggestedCraftsmanship t;
  RecipeJSONLevelTableType.SuggestedControl := RecipeJSONLevelTableType.SuggestedControl t;
  RecipeJSONLevelTableType.ProgressDivider := RecipeJSONLevelTableType.ProgressDivider t;
  RecipeJSONLevelTableType.ProgressModifier := RecipeJSONLevelTableType.ProgressModifier t;
  RecipeJSONLevelTableType.QualityDivider := RecipeJSONLevelTableType.QualityDivider t;
  RecipeJSONLevelTableType.QualityModifier := RecipeJSONLevelTableType.QualityModifier t
|}.

(** A record without level table, and one whose difficulty is beyond the
    exact range: [139344047876599 * 101 = 100 * (2 ^ 47 + 36) + 99]. *)
Definition recipe_without_table : RecipeJSONType.t := with_table None sample_recipe.

Definition large_recipe : RecipeJSONType.t :=
  with_table (Some (with_difficulty (PyNum.PInt 139344047876599) sample_table)) sample_recipe.

(** Sample responses and worlds. *)
Definition index_of (total : PyNum.t) : Response.t RecipeIndex.t :=
  Response.mk 200 (Some (RecipeIndex.mk (Some (Pagination.mk (Some total))))).

Definition empty_world : world := mk_world ∅ [] [].

(** A rate-limited response whose body has no [Results], and one whose body
    has. *)
Definition rate_limited : Response.t RecipePage.t :=
  Response.mk 429 (Some (RecipePage.mk None)).

Definition rate_limited_with_results : Response.t RecipePage.t :=
  Response.mk 429 (Some (RecipePage.mk (Some [sample_recipe]))).

Definition page_of (results : list RecipeJSONType.t) : Response.t RecipePage.t :=
  Response.mk 200 (Some (RecipePage.mk (Some results))).

(** Three pages, the second rate-limited. *)
Definition three_pages (page_id : Z) : Response.t RecipePage.t :=
  if bool_decide (page_id = 2) then rate_limited else page_of [sample_recipe].

(** A raw buff item: a JSON object whose ["Bonuses"], and the three
    sub-records in it, are objects where they are present. *)
Definition bonus_stats : list string := ["CP"; "Craftsmanship"; "Control"].

Definition absent_or_dict (v : option json) : bool :=
  match v with
  | None | Some (JObj _) => true
  | Some _ => false
  end.

Definition is_raw_buff_item (item : json) : bool :=
  match item with
  | JObj o =>
      match o !! "Bonuses" with
      | None => true
      | Some (JObj b) => forallb (λ stat, absent_or_dict (b !! stat)) bonus_stats
      | Some _ => false
      end
  | _ => false
  end.

(** The value at [item["Bonuses"][stat][field]], [None] when a key on the
    way is missing. *)
Definition source_bonus (item : json) (stat field : string) : option json :=
  match item with
  | JObj o =>
      match o !! "Bonuses" with
      | Some (JObj b) =>
          match b !! stat with
          | Some (JObj sub) => sub !! field
          | _ => None
          end
      | _ => None
      end
  | _ => None
  end.

(** The value at [item[key]]. *)
Definition source_field (item : json) (key : string) : option json :=
  match item with
  | JObj o => o !! key
  | _ => None
  end.

(** Source path and output key of the six bonus fields. *)
Definition bonus_fields : list (string * string * string) :=
  [("CP", "Value", "cp_percent"); ("CP", "Max", "cp_value");
   ("Craftsmanship", "Value", "craft_percent"); ("Craftsmanship", "Max", "craft_value");
   ("Control", "Value", "control_percent"); ("Control", "Max", "control_value")].


(** The dictionary display of [extract_buff_data] for a raw buff item, and
    the two variants appended for it. *)
Definition item_names (item : json) : gmap string json :=
  list_to_map [
    ("en", default JNull (source_field item "Name_en"));
    ("de", default JNull (source_field item "Name_de"));
    ("fr", default JNull (source_field item "Name_fr"));
    ("ja", default JNull (source_field item "Name_ja"))].

Definition item_dict (item : json) (hq : bool) : gmap string json :=
  list_to_map [
    ("id", default JNull (source_field item "ID"));
    ("cp_percent", default JNull (source_bonus item "CP" "Value"));
    ("cp_value", default JNull (source_bonus item "CP" "Max"));
    ("craft_percent", default JNull (source_bonus item "Craftsmanship" "Value"));
    ("craft_value", default JNull (source_bonus item "Craftsmanship" "Max"));
    ("control_percent", default JNull (source_bonus item "Control" "Value"));
    ("control_value", default JNull (source_bonus item "Control" "Max"));
    ("hq", JBool hq);
    ("name", JObj (item_names item))].

Definition item_variants (item : json) : list (gmap string json) :=
  [drop_None (item_dict item false); drop_None (item_dict item true)].

(** The two items of the scenario of the specification, the second without
    [Control] bonus. *)
Definition jint (z : Z) : json := JNum (PyNum.PInt z).

Definition bonus_record (percent max : Z) : json :=
  JObj (list_to_map [("Relative", JBool true); ("Value", jint percent); ("Max", jint max)]).

Definition tea : json :=
  JObj (list_to_map [
    ("ID", jint 36116); ("Name", JStr "Cunning Craftsman's Tisane");
    ("Name_en", JStr "Cunning Craftsman's Tisane");
    ("Name_de", JStr "Trank des Handwerkers");
    ("Name_fr", JStr "Tisane");
    ("Bonuses", JObj (list_to_map [
       ("CP", bonus_record 6 21); ("Control", bonus_record 4 40)]))]).

Definition soup : json :=
  JObj (list_to_map [
    ("ID", jint 4717); ("Name", JStr "Mushroom Soup");
    ("Name_en", JStr "Mushroom Soup");
    ("Bonuses", JObj (list_to_map [("CP", bonus_record 8 28)]))]).

Definition search_of (results : list json) : Response.t SearchPage.t :=
  Response.mk 200 (Some (SearchPage.mk (Some results))).

(** The order of the sort keys [(id, hq)]: by [id], and [False] before
    [True] where the ids are equal. *)
Definition key_le (a b : Z * bool) : Prop :=
  a.1 < b.1 ∨ (a.1 = b.1 ∧ implb a.2 b.2 = true).

(** A recipe of the output, and a category that holds it twice. *)
Definition sample_out : RecipeType.t := {|
  RecipeType.id := 34567;
  RecipeType.name := LocaleNames.mk "Rarefied Sykon Bavarois" "Sykon-Bavarois"
                       "Bavarois au sykon" "Sykon Bavarois";
  RecipeType.baseLevel := 90;
  RecipeType.level := 580;
  RecipeType.difficulty := 99;
  RecipeType.durability := 70;
  RecipeType.maxQuality := 8736;
  RecipeType.suggestedCraftsmanship := 3180;
  RecipeType.suggestedControl := 3080;
  RecipeType.progressDivider := 130;
  RecipeType.progressModifier := 80;
  RecipeType.qualityDivider := 115;
  RecipeType.qualityModifier := 70;
  RecipeType.stars := Some 2
|}.

Definition with_id (id : Z) (r : RecipeType.t) : RecipeType.t := {|
  RecipeType.id := id;
  RecipeType.name := RecipeType.name r;
  RecipeType.baseLevel := RecipeType.baseLevel r;
  RecipeType.level := RecipeType.level r;
  RecipeType.difficulty := RecipeType.difficulty r;
  RecipeType.durability := RecipeType.durability r;
  RecipeType.maxQuality := RecipeType.maxQuality r;
  RecipeType.suggestedCraftsmanship := RecipeType.suggestedCraftsmanship r;
  RecipeType.suggestedControl := RecipeType.suggestedControl r;
  RecipeType.progressDivider := RecipeType.progressDivider r;
  RecipeType.progressModifier := RecipeType.progressModifier r;
  RecipeType.qualityDivider := RecipeType.qualityDivider r;
  RecipeType.qualityModifier := RecipeType.qualityModifier r;
  RecipeType.stars := RecipeType.stars r
|}.

Definition twice_listed : gmap string (list RecipeType.t) :=
  {["Culinarian" := [sample_out; sample_out]]}.

Definition two_classes : gmap string (list RecipeType.t) :=
  <["Culinarian" := [with_id 3 sample_out; with_id 1 sample_out; with_id 2 sample_out]]>
    {["Carpenter" := [with_id 7 sample_out; with_id 5 sample_out]]}.

(** The pages started, in the order of their start. *)
Definition started (events : list thread_event) : list Z :=
  omap (λ e, match e with Start i => Some i | Join _ => None end) events.

(** Pages 1 to 20 are batch 0, pages 21 to 40 batch 1, and so on. *)
Definition batch (page_id : Z) : Z := (page_id - 1) / 20.

(** An event is in order when at most 20 threads are in flight after it and
    a thread is started among threads of its own batch only. *)
Definition event_ok (running : list Z) (e : thread_event) : Prop :=
  (length (in_flight_step running e) ≤ 20)%nat ∧
  match e with
  | Start j => ∀ x, x ∈ running → batch x = batch j
  | Join _ => True
  end.

Fixpoint respects (running : list Z) (events : list thread_event) : Prop :=
  match events with
  | [] => True
  | e :: events => event_ok running e ∧ respects (in_flight_step running e) events
  end.

(** ** The main program *)

(** What a run of the script leaves behind: the requests sent, the lines
    printed, the files, and how it ended. *)
Record run := mk_run {
  run_requests : list request;
  run_stdout : list string;
  run_files : gmap string file_content;
  run_outcome : result unit
}.

Section Main.
Variable PARENT_DIR : string.
Variable get_index : Response.t RecipeIndex.t.
Variable get_page : Z → Response.t RecipePage.t.
Variable post : string → Response.t SearchPage.t.

(** [for buff_name in buff_types]: an exception of [extract_buff_data] or of
    the sort ends the program before [save_buffs_to_file]; the request of
    that turn has been sent. *)
Fixpoint main_buffs (names : list string) (sent : list request) (out : list string)
    (files : gmap string file_content) : run :=
  match names with
  | [] => mk_run sent out files (Return ())
  | buff_name :: names =>
      let sent := sent ++ (extract_buff_data post buff_name).1 in
      match persisted_buffs post buff_name with
      | Raise e => mk_run sent out files (Raise e)
      | Return buffs =>
          main_buffs names sent out (save_buffs_to_file PARENT_DIR buffs buff_name files)
      end
  end.

(** The block under [if __name__ == "__main__"], with the page tasks run in
    page order. *)
Definition main (files : gmap string file_content) : run :=
  let '(sent, pages) := get_total_pages get_index in
  match pages with
  | Raise e => mk_run sent [] files (Raise e)
  | Return pages_amount =>
      let w := handle_api_calls get_page pages_amount (mk_world ∅ [] sent) in
      main_buffs buff_types (requests w) (stdout w)
        (save_data_to_json PARENT_DIR (recipes w) files)
  end.
End Main.

(** ** More vocabulary *)

(** The recipes a list of records gives to one category, in the order of
    the records. *)
Definition recipes_for (key : string) (results : list RecipeJSONType.t)
  : list RecipeType.t :=
  omap (λ r, if bool_decide (RecipeJSONType.ClassJob r = Some key)
             then match construct_recipe_json r with
                  | Return (Some out) => Some out
                  | _ => None
                  end
             else None) results.

(** The pages whose fetch prints the message: status 429 and a JSON body. *)
Definition warned (get_page : Z → Response.t RecipePage.t) (page_id : Z) : bool :=
  bool_decide (Response.status_code (get_page page_id) = 429)
  && bool_decide (is_Some (Response.json (get_page page_id))).

(** The pages joined, in the order of the joins. *)
Definition joined (events : list thread_event) : list Z :=
  omap (λ e, match e with Join i => Some i | Start _ => None end) events.

(** Every join is of a thread in flight. *)
Fixpoint joins_started (running : list Z) (events : list thread_event) : Prop :=
  match events with
  | [] => True
  | e :: events =>
      match e with Join i => i ∈ running | Start _ => True end ∧
      joins_started (in_flight_step running e) events
  end.

(** More sample records: a factor that is NaN, an item whose ["Bonuses"] is
    null, an item without ["ID"]. *)
Definition with_factor (f : PyNum.t) (r : RecipeJSONType.t) : RecipeJSONType.t := {|
  RecipeJSONType.ID := RecipeJSONType.ID r;
  RecipeJSONType.Name_en := RecipeJSONType.Name_en r;
  RecipeJSONType.Name_de := RecipeJSONType.Name_de r;
  RecipeJSONType.Name_fr := RecipeJSONType.Name_fr r;
  RecipeJSONType.Name_ja := RecipeJSONType.Name_ja r;
  RecipeJSONType.ClassJob := RecipeJSONType.ClassJob r;
  RecipeJSONType.DurabilityFactor := RecipeJSONType.DurabilityFactor r;
  RecipeJSONType.QualityFactor := f;
  RecipeJSONType.DifficultyFactor := RecipeJSONType.DifficultyFactor r;
  RecipeJSONType.RequiredControl := RecipeJSONType.RequiredControl r;
  RecipeJSONType.RequiredCraftsmanship := RecipeJSONType.RequiredCraftsmanship r;
  RecipeJSONType.RecipeLevelTable := RecipeJSONType.RecipeLevelTable r
|}.

Definition nan_recipe : RecipeJSONType.t :=
  with_factor (PyNum.PFloat S754_nan) sample_recipe.

Definition null_bonuses : json :=
  JObj (list_to_map [("ID", jint 4718); ("Bonuses", JNull)]).

Definition no_id : json :=
  JObj (list_to_map [
    ("Name_en", JStr "Nameless Broth");
    ("Bonuses", JObj (list_to_map [("CP", bonus_record 3 10)]))]).

Definition null_value : json :=
  JObj (list_to_map [
    ("ID", jint 4719);
    ("Bonuses", JObj (list_to_map [
       ("CP", JObj (list_to_map [("Value", JNull); ("Max", jint 12)]))]))]).

Definition failing_search : Response.t SearchPage.t :=
  Response.mk 503 (Some (SearchPage.mk (Some [tea]))).

(** A source value as it shows in a variant: a missing one and a null one
    both give no key. *)
Definition present (v : option json) : option json :=
  match v with
  | Some v => if is_None v then None else Some v
  | None => None
  end.

(** The keys a variant can have. *)
Definition variant_keys : list string :=
  ["id"; "cp_percent"; "cp_value"; "craft_percent"; "craft_value";
   "control_percent"; "control_value"; "hq"; "name"].

(** An item without [ID], or with a null one. *)
Definition lacks_id (item : json) : bool :=
  match source_field item "ID" with
  | None | Some JNull => true
  | Some _ => false
  end.

Definition int_id (item : json) : bool :=
  match source_field item "ID" with
  | Some (JNum (PyNum.PInt _)) => true
  | _ => false
  end.
(** A variant whose ["id"] is an integer, as [Buffs] declares it. *)
Definition has_int_id (x : gmap string json) : bool :=
  match x !! "id" with
  | Some (JNum (PyNum.PInt _)) => true
  | _ => false
  end.


(** * Theorems *)

(** ** Python numbers on sample values

    The values are those CPython computes: [1 / 3], the quotient of the
    large recipe below, [float(2 ** 53 + 1)] and [float(2 ** 53 + 3)] (ties
    go to the even mantissa), [-7 / 100], and the three ways out of range. *)

Example int_truediv_third :
  PyNum.int_truediv 1 3 = Return (S754_finite false 6004799503160661 (-54)).
Proof. reflexivity. Qed.

Example int_truediv_large :
  PyNum.int_truediv 14073748835536499 100
  = Return (S754_finite false 4503599627371680 (-5)).
Proof. reflexivity. Qed.

Example int_truediv_negative :
  PyNum.int_truediv (-7) 100 = Return (S754_finite true 5044031582654956 (-56)).
Proof. reflexivity. Qed.

Example float_of_int_ties_to_even :
  PyNum.float_of_int (2 ^ 53 + 1) = Return (S754_finite false 4503599627370496 1) ∧
  PyNum.float_of_int (2 ^ 53 + 3) = Return (S754_finite false 4503599627370498 1).
Proof. split; reflexivity. Qed.

Example int_truediv_out_of_range :
  PyNum.int_truediv (10 ^ 400) 3 = Raise OverflowError ∧
  PyNum.int_truediv 1 (10 ^ 330) = Return (S754_zero false) ∧
  PyNum.float_of_int (2 ^ 1024) = Raise OverflowError.
Proof. repeat split; reflexivity. Qed.

(** ** The double quotient by 100 *)

Section FloatFacts.
  Import PyNum.

Lemma digits2_pos_size p : digits2_pos p = Pos.size p.
Proof. induction p as [p IH|p IH|]; simpl; congruence. Qed.

Lemma Zdigits2_bounds p :
  2 ^ (Zpos (digits2_pos p) - 1) ≤ Zpos p < 2 ^ Zpos (digits2_pos p).
Proof.
  rewrite digits2_pos_size.
  pose proof (Z.log2_spec (Zpos p) eq_refl) as H.
  replace (Zpos (Pos.size p)) with (Z.succ (Z.log2 (Zpos p))).
  - replace (Z.succ (Z.log2 (Z.pos p)) - 1) with (Z.log2 (Z.pos p)) by lia. exact H.
  - destruct p; simpl; lia.
Qed.

Lemma Zdigits2_unique m d :
  0 < d → 2 ^ (d - 1) ≤ m < 2 ^ d → Zdigits2 m = d.
Proof.
  intros Hd [Hlo Hhi].
  assert (0 < m) as Hm by (pose proof (Z.pow_pos_nonneg 2 (d - 1)); lia).
  destruct m as [|p|p]; try lia. simpl.
  pose proof (Zdigits2_bounds p) as [Hlo' Hhi'].
  set (k := Zpos (digits2_pos p)) in *.
  destruct (Z.lt_trichotomy k d) as [Hlt|[Heq|Hgt]]; [|done|].
  - assert (2 ^ k ≤ 2 ^ (d - 1)) by (apply Z.pow_le_mono_r; lia). lia.
  - assert (2 ^ d ≤ 2 ^ (k - 1)) by (apply Z.pow_le_mono_r; lia). lia.
Qed.

Lemma located_div_100 N :
  0 ≤ N → located 100 N (N / 100) (new_location 100 (N mod 100)).
Proof.
  intros HN.
  pose proof (Z.div_mod N 100 ltac:(lia)) as Hdm.
  pose proof (Z.mod_pos_bound N 100 ltac:(lia)) as Hr.
  change (new_location 100 (N mod 100)) with (new_location_even 100 (N mod 100)).
  unfold new_location_even.
  destruct (Z.eqb_spec (N mod 100) 0) as [H0|H0]; simpl; [lia|].
  destruct (Z.compare_spec (2 * (N mod 100)) 100); simpl; lia.
Qed.

Lemma located_shr_1 N m l :
  0 < m → located 100 N m l →
  let mrs := shr_1 (shr_record_of_loc m l) in
  (m = 2 * shr_m mrs ∨ m = 2 * shr_m mrs + 1) ∧
  located 200 N (shr_m mrs) (loc_of_shr_record mrs).
Proof.
  intros Hm Hl.
  destruct m as [|p|p]; try lia.
  destruct p as [p|p|]; destruct l as [|[]]; simpl in *; lia.
Qed.

Lemma located_round D N m l :
  0 < D → located D N m l →
  m ≤ round_nearest_even m l ≤ m + 1 ∧
  - D ≤ 2 * (round_nearest_even m l * D - N) ≤ D.
Proof.
  intros HD.
  destruct l as [|[]]; simpl; intros H; try destruct (Z.even m); nia.
Qed.

Lemma fexp_binary64 x : fexp prec emax x = Z.max (x - 53) (-1074).
Proof. reflexivity. Qed.

Lemma shr_fexp_keep m e l :
  fexp prec emax (Zdigits2 m + e) = e →
  shr_fexp prec emax m e l = (shr_record_of_loc m l, e).
Proof. unfold shr_fexp. intros ->. rewrite Z.sub_diag. reflexivity. Qed.

Lemma shr_fexp_one m e l :
  fexp prec emax (Zdigits2 m + e) = e + 1 →
  shr_fexp prec emax m e l = (shr_1 (shr_record_of_loc m l), e + 1).
Proof.
  unfold shr_fexp. intros ->. replace (e + 1 - e) with 1 by lia. reflexivity.
Qed.

Lemma SFdiv_core_100 n :
  Zpos (digits2_pos n) ≤ 54 →
  SFdiv_core_binary prec emax (Zpos n) 0 100 0 =
  (Zpos n * 2 ^ (60 - Zpos (digits2_pos n)) / 100,
   Zpos (digits2_pos n) - 60,
   new_location 100 ((Zpos n * 2 ^ (60 - Zpos (digits2_pos n))) mod 100)).
Proof.
  intros Hd. unfold SFdiv_core_binary.
  change (Zdigits2 100) with 7. change (Zdigits2 (Zpos n)) with (Zpos (digits2_pos n)).
  set (d1 := Zpos (digits2_pos n)) in *.
  rewrite fexp_binary64.
  replace (Z.min (Z.max (d1 + 0 - (7 + 0) - 53) (-1074)) (0 - 0)) with (d1 - 60) by lia.
  replace (0 - 0 - (d1 - 60)) with (60 - d1) by lia.
  destruct (60 - d1) as [|p|p] eqn:Hs; try lia.
  rewrite Z.shiftl_mul_pow2 by lia.
  unfold Z.div, Z.modulo.
  destruct (Z.div_eucl (Zpos n * 2 ^ Zpos p) 100) as [q r]. reflexivity.
Qed.

Lemma loc_of_shr_record_of_loc m l :
  loc_of_shr_record (shr_record_of_loc m l) = l ∧ shr_m (shr_record_of_loc m l) = m.
Proof. by destruct l as [|[]]. Qed.

Lemma binary_round_aux_finite sx m e :
  2 ^ 52 ≤ m < 2 ^ 53 → -1074 ≤ e ≤ 971 →
  ∃ p, m = Zpos p ∧
       (let '(mrs, e') := shr_fexp prec emax m e loc_Exact in
        match shr_m mrs with
        | Z0 => S754_zero sx
        | Zpos m => if e' <=? emax - prec then S754_finite sx m e' else S754_infinity sx
        | Zneg _ => S754_nan
        end) = S754_finite sx p e.
Proof.
  intros Hm He.
  destruct m as [|p|p]; try lia. exists p. split; [done|].
  rewrite shr_fexp_keep.
  - simpl shr_m. cbv iota.
    destruct (Z.leb_spec e (emax - prec)) as [_|Hgt]; [done|].
    unfold emax, prec in Hgt. lia.
  - rewrite (Zdigits2_unique (Zpos p) 53) by lia. rewrite fexp_binary64. lia.
Qed.

Lemma binary_round_aux_100 sx N q e l :
  located 100 N q l → 2 ^ 52 ≤ q < 3 * 2 ^ 52 → -1074 ≤ e ≤ 970 →
  ∃ m,
    (binary_round_aux prec emax sx q e l = S754_finite sx m e ∧
     -50 ≤ 100 * Zpos m - N ≤ 50) ∨
    (binary_round_aux prec emax sx q e l = S754_finite sx m (e + 1) ∧
     -100 ≤ 200 * Zpos m - N ≤ 100 ∧ 100 * 2 ^ 53 - 50 ≤ N).
Proof.
  intros Hloc Hq He. unfold binary_round_aux.
  destruct (Z.lt_ge_cases q (2 ^ 53)) as [Hsmall|Hbig].
  - rewrite shr_fexp_keep; last first.
    { rewrite (Zdigits2_unique q 53) by lia. rewrite fexp_binary64. lia. }
    destruct (loc_of_shr_record_of_loc q l) as [-> ->].
    destruct (located_round 100 N q l ltac:(lia) Hloc) as [Hm1 Herr].
    set (m1 := round_nearest_even q l) in *.
    destruct (Z.lt_ge_cases m1 (2 ^ 53)) as [Hm1s|Hm1b].
    + destruct (binary_round_aux_finite sx m1 e ltac:(lia) ltac:(lia)) as (p & Hp & ->).
      exists p. left. split; [done|]. lia.
    + assert (m1 = 2 ^ 53) as -> by lia.
      exists (2 ^ 52)%positive. right.
      rewrite shr_fexp_one; last first.
      { rewrite (Zdigits2_unique (2 ^ 53) 54) by lia. rewrite fexp_binary64. lia. }
      change (shr_m (shr_1 (shr_record_of_loc (2 ^ 53) loc_Exact))) with (Zpos (2 ^ 52)).
      cbv iota.
      destruct (Z.leb_spec (e + 1) (emax - prec)) as [_|Hgt];
        [|unfold emax, prec in Hgt; lia].
      split; [done|]. lia.
  - rewrite shr_fexp_one; last first.
    { rewrite (Zdigits2_unique q 54) by lia. rewrite fexp_binary64. lia. }
    destruct (located_shr_1 N q l ltac:(lia) Hloc) as [Hhalf Hloc2].
    set (mrs := shr_1 (shr_record_of_loc q l)) in *.
    destruct (located_round 200 N _ _ ltac:(lia) Hloc2) as [Hm1 Herr].
    set (m1 := round_nearest_even (shr_m mrs) (loc_of_shr_record mrs)) in *.
    destruct (binary_round_aux_finite sx m1 (e + 1) ltac:(lia) ltac:(lia)) as (p & Hp & ->).
    exists p. right. split; [done|].
    assert (100 * q ≤ N) by (destruct l as [|[]]; simpl in Hloc; lia).
    lia.
Qed.

Lemma SFdiv_100 s n :
  Zpos n < 100 * 2 ^ 47 →
  ∃ m e,
    SFdiv prec emax (S754_finite s n 0) (S754_finite false 100 0) = S754_finite s m e ∧
    e ≤ -6 ∧ -50 ≤ 100 * Zpos m - Zpos n * 2 ^ (- e) ≤ 50.
Proof.
  intros Hn.
  pose proof (Zdigits2_bounds n) as [Hlo Hhi].
  set (d1 := Zpos (digits2_pos n)) in *.
  assert (1 ≤ d1) as Hd1 by (unfold d1; lia).
  assert (d1 ≤ 54) as Hd54.
  { destruct (Z.le_gt_cases d1 54) as [|Hgt]; [done|].
    assert (2 ^ 54 ≤ 2 ^ (d1 - 1)) by (apply Z.pow_le_mono_r; lia). lia. }
  unfold SFdiv. rewrite SFdiv_core_100 by done. fold d1.
  rewrite xorb_false_r.
  set (P := 2 ^ (60 - d1)).
  assert (2 ^ (d1 - 1) * P = 2 ^ 59) as HP1.
  { unfold P. rewrite <- Z.pow_add_r by lia. f_equal. lia. }
  assert (2 ^ d1 * P = 2 ^ 60) as HP2.
  { unfold P. rewrite <- Z.pow_add_r by lia. f_equal. lia. }
  assert (64 ≤ P) as HP64.
  { unfold P. change 64 with (2 ^ 6). apply Z.pow_le_mono_r; lia. }
  assert (2 ^ 59 ≤ Zpos n * P < 2 ^ 60) as HM by nia.
  set (M := Zpos n * P) in *.
  pose proof (Z.div_mod M 100 ltac:(lia)) as Hdm.
  pose proof (Z.mod_pos_bound M 100 ltac:(lia)) as Hr.
  destruct (binary_round_aux_100 s M (M / 100) (d1 - 60) _
              (located_div_100 M ltac:(lia)) ltac:(lia) ltac:(lia))
    as [m [[-> Herr]|(-> & Herr & Hover)]].
  - exists m, (d1 - 60). split; [done|]. split; [lia|].
    replace (- (d1 - 60)) with (60 - d1) by lia. fold P. fold M. lia.
  - exists m, (d1 - 60 + 1). split; [done|].
    assert (d1 ≠ 54) as Hne.
    { intros Heq. unfold M, P in Hover. rewrite Heq in Hover.
      change (2 ^ (60 - 54)) with 64 in Hover. lia. }
    split; [lia|].
    replace (- (d1 - 60 + 1)) with (59 - d1) by lia.
    assert (P = 2 * 2 ^ (59 - d1)) as HP'.
    { unfold P. replace (60 - d1) with (Z.succ (59 - d1)) by lia.
      rewrite Z.pow_succ_r by lia. done. }
    unfold M in Herr. rewrite HP' in Herr. lia.
Qed.

Lemma floor_near n m P :
  64 ≤ P → -50 ≤ 100 * m - n * P ≤ 50 →
  m / P = n / 100 ∧ (- m) / P = (- n) / 100.
Proof.
  intros HP Herr.
  pose proof (Z.div_mod n 100 ltac:(lia)) as Hdm.
  pose proof (Z.mod_pos_bound n 100 ltac:(lia)) as Hr.
  set (k := n / 100) in *. set (r := n mod 100) in *.
  assert (0 ≤ r * P ≤ 99 * P) as HrP by nia.
  assert (n * P = 100 * (k * P) + r * P) as Hexp by (rewrite Hdm; ring).
  rewrite Hexp in Herr. split.
  - symmetry. apply (Z.div_unique m P k (m - P * k)); nia.
  - destruct (decide (r = 0)) as [Hr0|Hr0].
    + assert (m = k * P) as -> by lia.
      replace (- (k * P)) with (- k * P) by ring.
      rewrite Z.div_mul by lia.
      replace (- n) with (- k * 100) by lia.
      by rewrite Z.div_mul by lia.
    + assert (1 * P ≤ r * P) by nia.
      transitivity (- k - 1).
      * symmetry. apply (Z.div_unique (- m) P (- k - 1) (- m - P * (- k - 1))); nia.
      * apply (Z.div_unique (- n) 100 (- k - 1) (100 - r)); lia.
Qed.

Lemma floor_scaled_int b f :
  Z.abs (b * f) < 100 * 2 ^ 47 →
  floor_scaled (PInt b) (PInt f) = Return (b * f / 100).
Proof.
  intros Hn. unfold floor_scaled. simpl mul.
  change (Return (PInt (b * f)) ≫= _) with
    (truediv (PInt (b * f)) (PInt 100) ≫= PyNum.floor).
  unfold truediv, int_truediv.
  destruct (b * f) as [|n|n] eqn:Hbf.
  - done.
  - change (Z.to_pos (Z.abs (Zpos n))) with n. change (Z.pos n <? 0) with false.
    change (Z.to_pos (Z.abs 100)) with 100%positive. change (100 <? 0) with false.
    destruct (SFdiv_100 false n ltac:(lia)) as (m & e & -> & He & Herr).
    destruct e as [|e|e]; try lia.
    cbn. f_equal.
    assert (64 ≤ 2 ^ Zpos e) as HP.
    { change 64 with (2 ^ 6). apply Z.pow_le_mono_r; lia. }
    change (- Zneg e) with (Zpos e) in Herr.
    by destruct (floor_near _ _ _ HP Herr) as [-> _].
  - change (Z.to_pos (Z.abs (Zneg n))) with n. change (Z.neg n <? 0) with true.
    change (Z.to_pos (Z.abs 100)) with 100%positive. change (100 <? 0) with false.
    destruct (SFdiv_100 true n ltac:(lia)) as (m & e & -> & He & Herr).
    destruct e as [|e|e]; try lia.
    cbn. f_equal.
    assert (64 ≤ 2 ^ Zpos e) as HP.
    { change 64 with (2 ^ 6). apply Z.pow_le_mono_r; lia. }
    change (- Zneg e) with (Zpos e) in Herr.
    by destruct (floor_near _ _ _ HP Herr) as [_ Hneg].
Qed.
End FloatFacts.

(** ** construct_recipe_json *)

(** The example of the specification: base 99 and factor 101 give 99. *)
Example floor_scaled_99_101 :
  floor_scaled (PyNum.PInt 99) (PyNum.PInt 101) = Return 99.
Proof. reflexivity. Qed.

(** A double factor: [0.29] is the double [5224175567749775 * 2 ^ -54], and
    [math.floor(10000 * 0.29 / 100)] is 29. *)
Example floor_scaled_float :
  floor_scaled (PyNum.PInt 10000)
    (PyNum.PFloat (S754_finite false 5224175567749775 (-54))) = Return 29.
Proof. reflexivity. Qed.

(** The bound of [exact_range] is sharp up to the remainder: the product
    [100 * 2 ^ 47 + 99] is the first whose quotient rounds up to an integer. *)
Example floor_scaled_first_inexact :
  floor_scaled (PyNum.PInt (100 * 2 ^ 47 + 98)) (PyNum.PInt 1) = Return (2 ^ 47) ∧
  floor_scaled (PyNum.PInt (100 * 2 ^ 47 + 99)) (PyNum.PInt 1) = Return (2 ^ 47 + 1).
Proof. split; reflexivity. Qed.

(** C1, as stated, fails: beyond [100 * 2 ^ 47] the quotient is rounded to a
    double before the floor is taken.  With base [139344047876599] and factor
    [101] the script stores [140737488355365], one more than the floor of the
    exact quotient. *)
Lemma construct_recipe_json_rounds_up :
  ∃ out,
    construct_recipe_json large_recipe = Return (Some out) ∧
    RecipeType.difficulty out = 140737488355365 ∧
    RecipeType.difficulty out ≠ 139344047876599 * 101 / 100.
Proof. eexists. split; [reflexivity|]. split; [reflexivity|]. by vm_compute. Qed.

(** C1 (amended): for a record with a level table whose three base values
    and three factors are integers with [|base * factor| < 100 * 2 ^ 47],
    [construct_recipe_json] returns a recipe whose [difficulty], [durability]
    and [maxQuality] are the integer floor of [base * factor / 100]. *)
Theorem construct_recipe_json_scaled
    (r : RecipeJSONType.t) (table : RecipeJSONLevelTableType.t)
    (base fd fu fq : Z) :
  RecipeJSONType.RecipeLevelTable r = Some table →
  RecipeJSONLevelTableType.Difficulty table = PyNum.PInt base →
  RecipeJSONType.DifficultyFactor r = PyNum.PInt fd →
  RecipeJSONType.DurabilityFactor r = PyNum.PInt fu →
  RecipeJSONType.QualityFactor r = PyNum.PInt fq →
  exact_range base fd →
  exact_range (RecipeJSONLevelTableType.Durability table) fu →
  exact_range (RecipeJSONLevelTableType.Quality table) fq →
  ∃ out,
    construct_recipe_json r = Return (Some out) ∧
    RecipeType.difficulty out = base * fd / 100 ∧
    RecipeType.durability out = RecipeJSONLevelTableType.Durability table * fu / 100 ∧
    RecipeType.maxQuality out = RecipeJSONLevelTableType.Quality table * fq / 100.
Proof.
  intros Htable Hbase Hfd Hfu Hfq Hd Hu Hq.
  unfold construct_recipe_json. rewrite Htable, Hbase, Hfd, Hfu, Hfq.
  rewrite !floor_scaled_int by done.
  eexists. split; [reflexivity|]. done.
Qed.

Lemma construct_recipe_json_scaled_witness :
  ∃ out,
    construct_recipe_json sample_recipe = Return (Some out) ∧
    RecipeType.difficulty out = 99 * 101 / 100 ∧
    RecipeType.durability out = 70 * 100 / 100 ∧
    RecipeType.maxQuality out = 10920 * 80 / 100.
Proof.
  apply (construct_recipe_json_scaled sample_recipe sample_table 99 101 100 80);
    reflexivity.
Defined.

(** C7: the [stars] key is in the output exactly when the [Stars] of the
    level table is not 0, and then holds that value. *)
Theorem construct_recipe_json_stars
    (r : RecipeJSONType.t) (table : RecipeJSONLevelTableType.t) (out : RecipeType.t) :
  RecipeJSONType.RecipeLevelTable r = Some table →
  construct_recipe_json r = Return (Some out) →
  (is_Some (RecipeType.stars out) ↔ RecipeJSONLevelTableType.Stars table ≠ 0) ∧
  (∀ s, RecipeType.stars out = Some s → s = RecipeJSONLevelTableType.Stars table).
Proof.
  intros Htable. unfold construct_recipe_json. rewrite Htable.
  destruct (floor_scaled (RecipeJSONLevelTableType.Difficulty table) _)
    as [difficulty|]; [|done].
  destruct (floor_scaled (PyNum.PInt (RecipeJSONLevelTableType.Durability table)) _)
    as [durability|]; [|done].
  destruct (floor_scaled (PyNum.PInt (RecipeJSONLevelTableType.Quality table)) _)
    as [maxQuality|]; [|done].
  intros [= <-]. cbn.
  case_bool_decide as Hstars.
  - split; [by split; eauto|]. by intros s [= <-].
  - split; [|done]. split; [by intros [? ?]|done].
Qed.

Lemma construct_recipe_json_stars_witness :
  ∃ out,
    construct_recipe_json sample_recipe = Return (Some out) ∧
    (is_Some (RecipeType.stars out) ↔ 2 ≠ 0) ∧
    (∀ s, RecipeType.stars out = Some s → s = 2).
Proof.
  eexists. split; [reflexivity|].
  apply (construct_recipe_json_stars sample_recipe sample_table); reflexivity.
Defined.

Lemma construct_recipe_json_None (r : RecipeJSONType.t) :
  RecipeJSONType.RecipeLevelTable r = None → construct_recipe_json r = Return None.
Proof. intros Htable. unfold construct_recipe_json. by rewrite Htable. Qed.

(** C2: a record whose level table is null gives [None] and no exception,
    the loop of [api_call] appends nothing for it, and the records after it
    are processed as if it were not there; no recipe is ever made of it. *)
Theorem construct_recipe_json_no_table (r : RecipeJSONType.t) :
  RecipeJSONType.RecipeLevelTable r = None →
  construct_recipe_json r = Return None ∧
  (∀ out, construct_recipe_json r ≠ Return (Some out)) ∧
  (∀ recipes, (api_call_results [r] recipes).1 = recipes) ∧
  (∀ key before after recipes,
     RecipeJSONType.ClassJob r = Some key →
     api_call_results (before ++ r :: after) recipes =
     api_call_results (before ++ after) recipes).
Proof.
  intros Htable.
  pose proof (construct_recipe_json_None r Htable) as Hnone.
  split; [done|]. split; [by rewrite Hnone|]. split.
  - intros recipes. simpl. rewrite Hnone. by destruct (RecipeJSONType.ClassJob r).
  - intros key before after recipes Hkey. revert recipes.
    induction before as [|r0 before IH]; intros recipes; simpl.
    + by rewrite Hkey, Hnone.
    + destruct (RecipeJSONType.ClassJob r0); [|done].
      destruct (construct_recipe_json r0) as [[constructed|]|]; by rewrite ?IH.
Qed.

Lemma construct_recipe_json_no_table_witness :
  construct_recipe_json recipe_without_table = Return None ∧
  (∀ out, construct_recipe_json recipe_without_table ≠ Return (Some out)) ∧
  (∀ recipes, (api_call_results [recipe_without_table] recipes).1 = recipes) ∧
  (∀ key before after recipes,
     RecipeJSONType.ClassJob recipe_without_table = Some key →
     api_call_results (before ++ recipe_without_table :: after) recipes =
     api_call_results (before ++ after) recipes).
Proof. apply (construct_recipe_json_no_table recipe_without_table). reflexivity. Defined.

(** A recipe in the output has a level table in the source. *)
Lemma construct_recipe_json_Some_table (r : RecipeJSONType.t) (out : RecipeType.t) :
  construct_recipe_json r = Return (Some out) →
  is_Some (RecipeJSONType.RecipeLevelTable r).
Proof.
  unfold construct_recipe_json.
  destruct (RecipeJSONType.RecipeLevelTable r); [eauto|done].
Qed.

(** A page of records without level table leaves the dictionary as it was. *)
Lemma api_call_results_all_dropped results recipes :
  Forall (λ r, RecipeJSONType.RecipeLevelTable r = None) results →
  (api_call_results results recipes).1 = recipes.
Proof.
  induction 1 as [|r results Hr _ IH]; simpl; [done|].
  destruct (RecipeJSONType.ClassJob r); [|done].
  rewrite (construct_recipe_json_None r Hr). exact IH.
Qed.

(** ** get_total_pages *)

(** C9, as stated, fails: the function returns what the envelope holds, and
    a [PageTotal] of 0 comes back as 0. *)
Lemma get_total_pages_zero :
  ∃ n, (get_total_pages (index_of (PyNum.PInt 0))).2 = Return n ∧ ¬ 0 < n.
Proof. exists 0. split; [reflexivity|lia]. Qed.

(** C9 (amended): the function issues one request, for the page metadata,
    and returns the [PageTotal] of the envelope; for an integer [PageTotal]
    that integer comes back unchanged, so the result is positive exactly when
    the envelope's value is. *)
Theorem get_total_pages_returns_PageTotal
    (r : Response.t RecipeIndex.t) (recipe_data : RecipeIndex.t)
    (pagination : Pagination.t) (total : Z) :
  Response.json r = Some recipe_data →
  RecipeIndex.Pagination recipe_data = Some pagination →
  Pagination.PageTotal pagination = Some (PyNum.PInt total) →
  get_total_pages r = ([GetRecipeIndex], Return total).
Proof. intros Hjson Hpag Htotal. unfold get_total_pages. by rewrite Hjson, Hpag, Htotal. Qed.

Lemma get_total_pages_returns_PageTotal_witness :
  get_total_pages (index_of (PyNum.PInt 490)) = ([GetRecipeIndex], Return 490).
Proof.
  apply (get_total_pages_returns_PageTotal _
           (RecipeIndex.mk (Some (Pagination.mk (Some (PyNum.PInt 490)))))
           (Pagination.mk (Some (PyNum.PInt 490))));
    reflexivity.
Defined.

(** The request is sent whatever comes back. *)
Lemma get_total_pages_one_request (r : Response.t RecipeIndex.t) :
  (get_total_pages r).1 = [GetRecipeIndex].
Proof. reflexivity. Qed.

(** ** api_call *)

(** What [api_call] does to [recipes] depends on [recipes] alone. *)
Lemma api_call_recipes get_page page_id (w w' : world) :
  recipes w = recipes w' →
  recipes (api_call get_page page_id w).1 = recipes (api_call get_page page_id w').1.
Proof.
  intros Heq. unfold api_call.
  destruct (Response.json (get_page page_id)) as [page_data|]; [|done].
  destruct (RecipePage.Results page_data) as [results|]; [|done].
  rewrite Heq. by destruct (api_call_results results (recipes w')).
Qed.

Lemma run_pages_recipes get_page pages (w w' : world) :
  recipes w = recipes w' →
  recipes (run_pages get_page pages w) = recipes (run_pages get_page pages w').
Proof.
  revert w w'. induction pages as [|page_id pages IH]; intros w w' Heq; [done|].
  simpl. apply IH. by apply api_call_recipes.
Qed.

Lemma run_pages_app get_page pages1 pages2 (w : world) :
  run_pages get_page (pages1 ++ pages2) w =
  run_pages get_page pages2 (run_pages get_page pages1 w).
Proof. apply foldl_app. Qed.

(** The status code does not decide whether the results are processed. *)
Lemma api_call_any_status get_page page_id (w : world) page_data results :
  Response.json (get_page page_id) = Some page_data →
  RecipePage.Results page_data = Some results →
  recipes (api_call get_page page_id w).1 = (api_call_results results (recipes w)).1.
Proof.
  intros Hjson Hres. unfold api_call. rewrite Hjson, Hres.
  by destruct (api_call_results results (recipes w)).
Qed.

(** C4, as stated, fails: the status is looked at for the message only.  A
    429 response whose body carries results has them appended. *)
Lemma api_call_429_appends :
  Response.status_code (rate_limited_with_results) = 429 ∧
  recipes empty_world !! "Culinarian" = None ∧
  ∃ out,
    recipes (api_call (λ _, rate_limited_with_results) 2 empty_world).1 !! "Culinarian"
    = Some [out].
Proof. split; [done|]. split; [done|]. eexists. reflexivity. Qed.

(** C4 (amended): on a 429 response whose body is JSON without [Results],
    the message is printed, the page is requested once, nothing is added to
    the dictionary and the task ends with [KeyError]; the run goes on, and
    its dictionary is the one of a run without that page. *)
Theorem api_call_429 (get_page : Z → Response.t RecipePage.t) (page_id : Z)
    (page_data : RecipePage.t) :
  Response.status_code (get_page page_id) = 429 →
  Response.json (get_page page_id) = Some page_data →
  RecipePage.Results page_data = None →
  (∀ w, api_call get_page page_id w =
        (mk_world (recipes w) (stdout w ++ [too_many_requests])
           (requests w ++ [GetRecipePage page_id]),
         Raise KeyError)) ∧
  (∀ before after w,
     recipes (run_pages get_page (before ++ page_id :: after) w) =
     recipes (run_pages get_page (before ++ after) w)).
Proof.
  intros Hstatus Hjson Hres.
  assert (∀ w, api_call get_page page_id w =
        (mk_world (recipes w) (stdout w ++ [too_many_requests])
           (requests w ++ [GetRecipePage page_id]),
         Raise KeyError)) as Hcall.
  { intros w. unfold api_call. rewrite Hjson, Hres.
    by rewrite bool_decide_eq_true_2. }
  split; [done|].
  intros before after w. rewrite !run_pages_app. simpl.
  apply run_pages_recipes. unfold run_page. by rewrite Hcall.
Qed.

Lemma api_call_429_witness :
  (∀ w, api_call three_pages 2 w =
        (mk_world (recipes w) (stdout w ++ [too_many_requests])
           (requests w ++ [GetRecipePage 2]),
         Raise KeyError)) ∧
  (∀ before after w,
     recipes (run_pages three_pages (before ++ 2 :: after) w) =
     recipes (run_pages three_pages (before ++ after) w)).
Proof. apply (api_call_429 three_pages 2 (RecipePage.mk None)); reflexivity. Defined.

(** The scenario of the specification: three pages, the second
    rate-limited.  Pages 1 and 3 contribute, page 2 does not, and the message
    is printed once. *)
Example handle_api_calls_three_pages :
  ∃ out,
    construct_recipe_json sample_recipe = Return (Some out) ∧
    recipes (handle_api_calls three_pages 3 empty_world) !! "Culinarian" = Some [out; out] ∧
    stdout (handle_api_calls three_pages 3 empty_world) = [too_many_requests] ∧
    requests (handle_api_calls three_pages 3 empty_world) =
      [GetRecipePage 1; GetRecipePage 2; GetRecipePage 3].
Proof. eexists. split; [reflexivity|]. split; [reflexivity|]. split; reflexivity. Qed.

(** ** extract_buff_data *)

Lemma get_raw (o : gmap string json) key dflt :
  get (JObj o) key dflt = Return (default dflt (o !! key)).
Proof. done. Qed.

Lemma bonus_raw item stat field :
  is_raw_buff_item item = true → stat ∈ bonus_stats →
  bonus item stat field = Return (default JNull (source_bonus item stat field)).
Proof.
  intros Hraw Hstat.
  destruct item as [| | | | |o]; try done.
  unfold bonus, source_bonus. rewrite get_raw. unfold is_raw_buff_item in Hraw.
  destruct (o !! "Bonuses") as [[| | | | |b]|]; try done; cbn.
  assert (absent_or_dict (b !! stat) = true) as Hsub.
  { rewrite forallb_forall in Hraw. apply Hraw. by apply list_elem_of_In. }
  by destruct (b !! stat) as [[| | | | |sub]|].
Qed.

Lemma new_item_raw item hq :
  is_raw_buff_item item = true → new_item item hq = Return (item_dict item hq).
Proof.
  intros Hraw. unfold new_item.
  rewrite !(bonus_raw item) by (done || (unfold bonus_stats; set_solver)).
  by destruct item as [| | | | |o].
Qed.

Lemma buff_variants_raw item :
  is_raw_buff_item item = true → buff_variants item = Return (item_variants item).
Proof. intros Hraw. unfold buff_variants. by rewrite !new_item_raw. Qed.

Lemma extract_results_raw results buffs :
  Forall (λ item, is_raw_buff_item item = true) results →
  extract_results results buffs = Return (buffs ++ results ≫= item_variants).
Proof.
  intros Hraw. revert buffs.
  induction Hraw as [|item results Hitem _ IH]; intros buffs; simpl.
  - by rewrite app_nil_r.
  - rewrite buff_variants_raw by done. cbn. rewrite IH. by rewrite <- app_assoc.
Qed.

Lemma item_variants_lookup results (i : nat) item :
  results !! i = Some item →
  (results ≫= item_variants) !! (2 * i)%nat = Some (drop_None (item_dict item false)) ∧
  (results ≫= item_variants) !! (2 * i + 1)%nat = Some (drop_None (item_dict item true)).
Proof.
  revert i. induction results as [|item0 results IH]; intros i Hi; [done|].
  destruct i as [|i]; simpl in Hi.
  - by injection Hi as ->.
  - replace (2 * S i)%nat with (S (S (2 * i))) by lia. simpl. by apply IH.
Qed.

Lemma item_variants_length results :
  length (results ≫= item_variants) = (2 * length results)%nat.
Proof.
  induction results as [|item results IH]; [done|].
  rewrite bind_cons, length_app, IH. simpl. lia.
Qed.

(** Lookups in the dictionary display. *)
Lemma item_dict_hq item hq : item_dict item hq !! "hq" = Some (JBool hq).
Proof. reflexivity. Qed.


Lemma item_dict_other item key :
  key ≠ "hq" → item_dict item false !! key = item_dict item true !! key.
Proof.
  intros Hkey. unfold item_dict. simpl list_to_map.
  rewrite !lookup_insert. repeat case_decide; congruence.
Qed.

Lemma item_dict_bonus item hq stat field key :
  (stat, field, key) ∈ bonus_fields →
  item_dict item hq !! key = Some (default JNull (source_bonus item stat field)).
Proof.
  unfold bonus_fields. rewrite !elem_of_cons, elem_of_nil.
  intros [[= -> -> ->]|[[= -> -> ->]|[[= -> -> ->]|[[= -> -> ->]|[[= -> -> ->]|[[= -> -> ->]|[]]]]]]];
    reflexivity.
Qed.

Lemma drop_None_lookup (d : gmap string json) key :
  drop_None d !! key =
  match d !! key with
  | Some v => if is_None v then None else Some v
  | None => None
  end.
Proof.
  unfold drop_None. rewrite map_lookup_filter.
  destruct (d !! key) as [v|]; [|done]. simpl.
  destruct (is_None v); [by rewrite option_guard_False|by rewrite option_guard_True].
Qed.

(** The variants of one raw buff item. *)
Lemma item_variants_spec item :
  let nq := drop_None (item_dict item false) in
  let hq := drop_None (item_dict item true) in
  nq !! "hq" = Some (JBool false) ∧
  hq !! "hq" = Some (JBool true) ∧
  delete "hq" nq = delete "hq" hq ∧
  (∀ stat field key,
     (stat, field, key) ∈ bonus_fields →
     source_bonus item stat field = None →
     nq !! key = None ∧ hq !! key = None).
Proof.
  intros nq hq. unfold nq, hq. split; [|split; [|split]].
  - by rewrite drop_None_lookup, item_dict_hq.
  - by rewrite drop_None_lookup, item_dict_hq.
  - apply map_eq. intros key. rewrite !lookup_delete.
    case_decide as Hkey; [done|].
    rewrite !drop_None_lookup. rewrite item_dict_other; [done|congruence].
  - intros stat field key Hfield Habsent.
    rewrite !drop_None_lookup, !(item_dict_bonus _ _ stat field key Hfield), Habsent.
    done.
Qed.

(** C3: for the raw buff items the search returns, [extract_buff_data]
    appends two variants per item, next to each other, the first with
    [hq = False] and the second with [hq = True] and the same in every other
    key; a bonus field the item lacks is a key neither variant has. *)
Theorem extract_buff_data_two_variants
    (post : string → Response.t SearchPage.t) (buff_name : string)
    (page : SearchPage.t) (results : list json) :
  raise_for_status (post buff_name) = Return () →
  Response.json (post buff_name) = Some page →
  SearchPage.Results page = Some results →
  Forall (λ item, is_raw_buff_item item = true) results →
  ∃ buffs,
    extract_buff_data post buff_name = ([PostSearch buff_name], Return buffs) ∧
    length buffs = (2 * length results)%nat ∧
    ∀ (i : nat) item,
      results !! i = Some item →
      ∃ nq hq,
        buffs !! (2 * i)%nat = Some nq ∧
        buffs !! (2 * i + 1)%nat = Some hq ∧
        nq !! "hq" = Some (JBool false) ∧
        hq !! "hq" = Some (JBool true) ∧
        delete "hq" nq = delete "hq" hq ∧
        (∀ stat field key,
           (stat, field, key) ∈ bonus_fields →
           source_bonus item stat field = None →
           nq !! key = None ∧ hq !! key = None).
Proof.
  intros Hstatus Hjson Hresults Hraw.
  exists (results ≫= item_variants). split; [|split].
  - unfold extract_buff_data. rewrite Hstatus, Hjson, Hresults. cbn.
    by rewrite extract_results_raw.
  - apply item_variants_length.
  - intros i item Hi.
    destruct (item_variants_lookup results i item Hi) as [Hnq Hhq].
    eexists _, _. split; [exact Hnq|]. split; [exact Hhq|].
    apply item_variants_spec.
Qed.

Lemma extract_buff_data_two_variants_witness :
  ∃ buffs,
    extract_buff_data (λ _, search_of [tea; soup]) "Medicine"
    = ([PostSearch "Medicine"], Return buffs) ∧
    length buffs = (2 * length [tea; soup])%nat ∧
    ∀ (i : nat) item,
      [tea; soup] !! i = Some item →
      ∃ nq hq,
        buffs !! (2 * i)%nat = Some nq ∧
        buffs !! (2 * i + 1)%nat = Some hq ∧
        nq !! "hq" = Some (JBool false) ∧
        hq !! "hq" = Some (JBool true) ∧
        delete "hq" nq = delete "hq" hq ∧
        (∀ stat field key,
           (stat, field, key) ∈ bonus_fields →
           source_bonus item stat field = None →
           nq !! key = None ∧ hq !! key = None).
Proof.
  apply (extract_buff_data_two_variants (λ _, search_of [tea; soup]) "Medicine"
           (SearchPage.mk (Some [tea; soup])) [tea; soup]);
    [reflexivity | reflexivity | reflexivity |].
  repeat constructor.
Defined.

(** The scenario of the specification: two items, one without [Control]
    bonus, give four records; the two of the incomplete item have no
    [control_percent] and no [control_value], the two others have both. *)
Example extract_buff_data_missing_control :
  ∃ a b c d,
    (extract_buff_data (λ _, search_of [tea; soup]) "Medicine").2 = Return [a; b; c; d] ∧
    a !! "control_percent" = Some (jint 4) ∧ a !! "control_value" = Some (jint 40) ∧
    b !! "control_percent" = Some (jint 4) ∧ b !! "control_value" = Some (jint 40) ∧
    c !! "control_percent" = None ∧ c !! "control_value" = None ∧
    d !! "control_percent" = None ∧ d !! "control_value" = None.
Proof. do 4 eexists. split; [reflexivity|]. repeat split; reflexivity. Qed.



(** ** sorted *)

Section SortedFacts.
Context {A K : Type} (lt : K → K → bool) (key : A → K) (R : relation A).
Context `{!Transitive R}.
Hypothesis lt_R : ∀ a b, lt (key a) (key b) = true → R a b.
Hypothesis not_lt_R : ∀ a b, lt (key a) (key b) = false → R b a.

Lemma sorted_insert_Permutation x l : sorted_insert lt key x l ≡ₚ x :: l.
Proof.
  induction l as [|y l IH]; simpl; [done|].
  destruct (lt (key y) (key x)); [|done].
  rewrite IH. apply perm_swap.
Qed.

Lemma sorted_Permutation l : sorted lt key l ≡ₚ l.
Proof.
  induction l as [|x l IH]; simpl; [done|].
  by rewrite sorted_insert_Permutation, IH.
Qed.

Lemma sorted_insert_StronglySorted x l :
  StronglySorted R l → StronglySorted R (sorted_insert lt key x l).
Proof.
  induction 1 as [|y l Hsorted IH Hall]; simpl.
  - by repeat constructor.
  - destruct (lt (key y) (key x)) eqn:Hlt.
    + constructor; [done|].
      rewrite sorted_insert_Permutation. constructor; [by apply lt_R|done].
    + assert (R x y) as Hxy by by apply not_lt_R.
      constructor; [by constructor|].
      constructor; [done|].
      eapply Forall_impl; [exact Hall|]. intros z Hz. by etrans.
Qed.

Lemma sorted_StronglySorted l : StronglySorted R (sorted lt key l).
Proof.
  induction l as [|x l IH]; simpl; [constructor|].
  by apply sorted_insert_StronglySorted.
Qed.
End SortedFacts.

(** Sorted by [id] without repetition is strictly sorted. *)
Lemma StronglySorted_id_strict (l : list RecipeType.t) :
  StronglySorted (λ a b, RecipeType.id a ≤ RecipeType.id b) l →
  NoDup (RecipeType.id <$> l) →
  StronglySorted (λ a b, RecipeType.id a < RecipeType.id b) l.
Proof.
  induction 1 as [|x l Hsorted IH Hall]; [constructor|].
  rewrite fmap_cons, NoDup_cons. intros [Hx Hnodup].
  constructor; [by apply IH|].
  apply Forall_forall. intros y Hy.
  rewrite Forall_forall in Hall. specialize (Hall y Hy).
  assert (RecipeType.id x ≠ RecipeType.id y); [|lia].
  intros Heq. apply Hx. rewrite Heq. by apply list_elem_of_fmap_2.
Qed.

Lemma sorted_by_id (l : list RecipeType.t) :
  sorted Z.ltb RecipeType.id l ≡ₚ l ∧
  StronglySorted (λ a b, RecipeType.id a ≤ RecipeType.id b)
    (sorted Z.ltb RecipeType.id l).
Proof.
  split; [apply sorted_Permutation|].
  apply sorted_StronglySorted.
  - intros a b c ??. lia.
  - intros a b ?%Z.ltb_lt. lia.
  - intros a b ?%Z.ltb_ge. lia.
Qed.

(** ** save_data_to_json *)

Lemma string_app_length (s t : string) :
  String.length (s +:+ t) = (String.length s + String.length t)%nat.
Proof.
  induction s as [|a s IH]; [done|].
  change (S (String.length (s +:+ t)) = S (String.length s + String.length t)).
  by rewrite IH.
Qed.

Lemma string_app_inj_r (t s1 s2 : string) : s1 +:+ t = s2 +:+ t → s1 = s2.
Proof.
  revert s2. induction s1 as [|a s1 IH]; intros [|b s2] Heq.
  - done.
  - apply (f_equal String.length) in Heq.
    rewrite !string_app_length in Heq. simpl in Heq. lia.
  - apply (f_equal String.length) in Heq.
    rewrite !string_app_length in Heq. simpl in Heq. lia.
  - change (String a (s1 +:+ t) = String b (s2 +:+ t)) in Heq.
    injection Heq as -> Heq. f_equal. by apply IH.
Qed.

Section PersistenceFacts.
Variable PARENT_DIR : string.

Lemma recipe_path_inj : Inj (=) (=) (recipe_path PARENT_DIR).
Proof.
  intros k1 k2. unfold recipe_path. intros Heq.
  apply (inj (String.append PARENT_DIR)) in Heq.
  apply (inj (String.append "/app/data/recipedb/")) in Heq.
  by apply string_app_inj_r in Heq.
Qed.

Lemma save_items_other items files path :
  (∀ item, item ∈ items → recipe_path PARENT_DIR item.1 ≠ path) →
  save_items PARENT_DIR items files !! path = files !! path.
Proof.
  revert files. induction items as [|item items IH]; intros files Hother; [done|].
  change (save_items PARENT_DIR (item :: items) files)
    with (save_items PARENT_DIR items (save_class PARENT_DIR files item.1 item.2)).
  rewrite IH.
  - unfold save_class. rewrite lookup_insert_ne; [done|]. apply Hother. by left.
  - intros item' Hin. apply Hother. by right.
Qed.

Lemma save_items_lookup items files class_job class_recipes :
  NoDup items.*1 → (class_job, class_recipes) ∈ items →
  save_items PARENT_DIR items files !! recipe_path PARENT_DIR class_job
  = Some (RecipeFile (sorted Z.ltb RecipeType.id class_recipes)).
Proof.
  revert files. induction items as [|item items IH]; intros files Hnodup Hin.
  { by apply elem_of_nil in Hin. }
  rewrite fmap_cons, NoDup_cons in Hnodup. destruct Hnodup as [Hfresh Hnodup].
  apply elem_of_cons in Hin as [Heq|Hin]; [subst item|].
  - change (save_items PARENT_DIR ((class_job, class_recipes) :: items) files)
      with (save_items PARENT_DIR items (save_class PARENT_DIR files class_job class_recipes)).
    rewrite save_items_other.
    + unfold save_class. simpl. by rewrite lookup_insert_eq.
    + intros item' Hin' Hpath. apply recipe_path_inj in Hpath. simpl in Hfresh.
      apply Hfresh. rewrite <- Hpath. by apply list_elem_of_fmap_2.
  - change (save_items PARENT_DIR (item :: items) files)
      with (save_items PARENT_DIR items (save_class PARENT_DIR files item.1 item.2)).
    by apply IH.
Qed.

Lemma save_items_twice items files :
  NoDup items.*1 →
  save_items PARENT_DIR items (save_items PARENT_DIR items files) = save_items PARENT_DIR items files.
Proof.
  intros Hnodup. apply map_eq. intros path.
  destruct (decide (Exists (λ item, recipe_path PARENT_DIR item.1 = path) items))
    as [Hex|Hnex].
  - apply Exists_exists in Hex as ([class_job class_recipes] & Hin & <-).
    simpl. by rewrite !(save_items_lookup items _ class_job class_recipes).
  - rewrite !save_items_other; [done|..];
      intros item Hin Hpath; apply Hnex, Exists_exists; eauto.
Qed.
(** The order in which the items of the dictionary are visited does not
    show in the files. *)
Lemma save_items_Permutation items1 items2 files :
  NoDup items1.*1 → items1 ≡ₚ items2 →
  save_items PARENT_DIR items1 files = save_items PARENT_DIR items2 files.
Proof.
  intros Hnodup Hperm.
  assert (NoDup items2.*1) as Hnodup2 by by rewrite <- Hperm.
  apply map_eq. intros path.
  destruct (decide (Exists (λ item, recipe_path PARENT_DIR item.1 = path) items1))
    as [Hex|Hnex].
  - apply Exists_exists in Hex as ([class_job class_recipes] & Hin & <-).
    simpl. rewrite (save_items_lookup items1 _ class_job class_recipes) by done.
    rewrite (save_items_lookup items2 _ class_job class_recipes); [done..|].
    by rewrite <- Hperm.
  - rewrite !save_items_other; [done|..];
      intros item Hin Hpath; apply Hnex, Exists_exists; exists item;
      (split; [|done]); [by rewrite Hperm|done].
Qed.
End PersistenceFacts.

(** C5, as stated, fails on the word strictly: the sort keeps every record,
    so a category that lists a recipe twice is written with the identifier
    twice. *)
Lemma save_data_to_json_keeps_duplicates :
  save_data_to_json "" twice_listed ∅ !! recipe_path "" "Culinarian"
  = Some (RecipeFile [sample_out; sample_out]) ∧
  ¬ StronglySorted (λ a b, RecipeType.id a < RecipeType.id b) [sample_out; sample_out].
Proof.
  split; [reflexivity|].
  intros Hsorted. apply StronglySorted_inv in Hsorted as [_ Hall].
  apply Forall_inv in Hall. simpl in Hall. lia.
Qed.

(** C5 (amended): for every category of the input, the file named after the
    category holds the records of the category, every one of them, in
    ascending order of [id], strictly ascending where the identifiers of the
    category are pairwise distinct; saving the same input again leaves every
    file as it is. *)
Theorem save_data_to_json_sorted (PARENT_DIR : string)
    (recipes : gmap string (list RecipeType.t)) (files : gmap string file_content)
    (class_job : string) (class_recipes : list RecipeType.t) :
  recipes !! class_job = Some class_recipes →
  ∃ written,
    save_data_to_json PARENT_DIR recipes files !! recipe_path PARENT_DIR class_job
    = Some (RecipeFile written) ∧
    written ≡ₚ class_recipes ∧
    StronglySorted (λ a b, RecipeType.id a ≤ RecipeType.id b) written ∧
    (NoDup (RecipeType.id <$> class_recipes) →
     StronglySorted (λ a b, RecipeType.id a < RecipeType.id b) written) ∧
    save_data_to_json PARENT_DIR recipes (save_data_to_json PARENT_DIR recipes files)
    = save_data_to_json PARENT_DIR recipes files.
Proof.
  intros Hlookup.
  destruct (sorted_by_id class_recipes) as [Hperm Hsorted].
  exists (sorted Z.ltb RecipeType.id class_recipes).
  split; [|split; [done|split; [done|split]]].
  - apply (save_items_lookup PARENT_DIR (map_to_list recipes)).
    + apply NoDup_fst_map_to_list.
    + by apply elem_of_map_to_list.
  - intros Hnodup. apply StronglySorted_id_strict; [done|]. by rewrite Hperm.
  - apply (save_items_twice PARENT_DIR (map_to_list recipes)).
    apply NoDup_fst_map_to_list.
Qed.

Lemma save_data_to_json_sorted_witness :
  ∃ written,
    save_data_to_json "/repo" two_classes ∅ !! recipe_path "/repo" "Culinarian"
    = Some (RecipeFile written) ∧
    written ≡ₚ [with_id 3 sample_out; with_id 1 sample_out; with_id 2 sample_out] ∧
    StronglySorted (λ a b, RecipeType.id a ≤ RecipeType.id b) written ∧
    (NoDup (RecipeType.id <$>
              [with_id 3 sample_out; with_id 1 sample_out; with_id 2 sample_out]) →
     StronglySorted (λ a b, RecipeType.id a < RecipeType.id b) written) ∧
    save_data_to_json "/repo" two_classes (save_data_to_json "/repo" two_classes ∅)
    = save_data_to_json "/repo" two_classes ∅.
Proof. apply (save_data_to_json_sorted "/repo" two_classes ∅ "Culinarian"). reflexivity. Defined.

Example save_data_to_json_two_classes :
  save_data_to_json "/repo" two_classes ∅ =
  {[ "/repo/app/data/recipedb/Culinarian.json" :=
       RecipeFile [with_id 1 sample_out; with_id 2 sample_out; with_id 3 sample_out];
     "/repo/app/data/recipedb/Carpenter.json" :=
       RecipeFile [with_id 5 sample_out; with_id 7 sample_out] ]}.
Proof. reflexivity. Qed.

(** An item that is not a raw buff item makes the extraction raise. *)
Lemma bonus_dict (o b : gmap string json) stat field :
  o !! "Bonuses" = Some (JObj b) →
  bonus (JObj o) stat field =
  if absent_or_dict (b !! stat)
  then Return (default JNull (source_bonus (JObj o) stat field))
  else Raise AttributeError.
Proof.
  intros Hb. unfold bonus, source_bonus. rewrite get_raw, Hb. cbn.
  by destruct (b !! stat) as [[| | | | |sub]|].
Qed.

Lemma bonus_not_dict (o : gmap string json) v stat field :
  o !! "Bonuses" = Some v → (∀ b, v ≠ JObj b) →
  bonus (JObj o) stat field = Raise AttributeError.
Proof.
  intros Hb Hv. unfold bonus. rewrite get_raw, Hb.
  destruct v as [| | | | |b]; try done. by destruct (Hv b).
Qed.

Lemma new_item_not_raw item hq :
  is_raw_buff_item item = false → new_item item hq = Raise AttributeError.
Proof.
  intros Hraw. destruct item as [| | | | |o]; try done.
  unfold is_raw_buff_item in Hraw. unfold new_item. rewrite get_raw.
  destruct (o !! "Bonuses") as [v|] eqn:Hb; [|done].
  assert ((∃ b, v = JObj b) ∨ (∀ b, v ≠ JObj b)) as [[b ->]|Hv].
  { destruct v as [| | | | |b]; try (by right). left. by exists b. }
  - rewrite !(bonus_dict o b) by done.
    unfold bonus_stats in Hraw. simpl in Hraw.
    destruct (absent_or_dict (b !! "CP")); [|done].
    destruct (absent_or_dict (b !! "Craftsmanship")); [|done].
    by destruct (absent_or_dict (b !! "Control")).
  - by rewrite (bonus_not_dict o v "CP" "Value").
Qed.

Lemma extract_results_not_raw results buffs :
  Exists (λ item, is_raw_buff_item item = false) results →
  extract_results results buffs = Raise AttributeError.
Proof.
  intros Hex. revert buffs.
  induction results as [|item results IH]; intros buffs; [by apply Exists_nil in Hex|].
  simpl. destruct (is_raw_buff_item item) eqn:Hraw.
  - rewrite buff_variants_raw by done. cbn. apply IH.
    apply Exists_cons in Hex as [Hex|Hex]; [congruence|done].
  - unfold buff_variants. rewrite !new_item_not_raw by done. reflexivity.
Qed.

(** ** Sorting and saving the buffs *)

#[local] Instance key_le_trans : Transitive key_le.
Proof.
  intros [a1 a2] [b1 b2] [c1 c2]. unfold key_le. simpl.
  intros [?|[? Hab]] [?|[? Hbc]]; try (left; lia).
  right. split; [lia|]. by destruct a2, b2, c2.
Qed.

Lemma key_lt_le a b : key_lt a b = true → key_le a b.
Proof.
  destruct a as [a1 a2], b as [b1 b2]. unfold key_lt, key_le. simpl.
  case_bool_decide as Heq.
  - intros Hlt. right. split; [done|]. by destruct a2, b2.
  - intros ?%Z.ltb_lt. by left.
Qed.

Lemma key_not_lt_le a b : key_lt a b = false → key_le b a.
Proof.
  destruct a as [a1 a2], b as [b1 b2]. unfold key_lt, key_le. simpl.
  case_bool_decide as Heq.
  - intros Hlt. right. split; [done|]. by destruct a2, b2.
  - intros ?%Z.ltb_ge. left. lia.
Qed.

Lemma buff_keys_spec buffs keyed :
  buff_keys buffs = Return keyed →
  keyed.*2 = buffs ∧ Forall (λ kx, buff_key kx.2 = Return kx.1) keyed.
Proof.
  revert keyed. induction buffs as [|x buffs IH]; intros keyed; simpl.
  - by intros [= <-].
  - destruct (buff_key x) as [k|] eqn:Hk; [|done]. cbn.
    destruct (buff_keys buffs) as [rest|]; [|done]. cbn.
    intros [= <-]. destruct (IH rest eq_refl) as [Hsnd Hall].
    split; [by rewrite fmap_cons, Hsnd|]. by constructor.
Qed.

Lemma sorted_buffs_spec buffs sorted_list :
  sorted_buffs buffs = Return sorted_list →
  ∃ keys,
    Forall2 (λ x k, buff_key x = Return k) sorted_list keys ∧
    StronglySorted key_le keys ∧
    sorted_list ≡ₚ buffs.
Proof.
  unfold sorted_buffs.
  destruct (buff_keys buffs) as [keyed|] eqn:Hkeyed; [|done]. cbn.
  intros [= <-]. destruct (buff_keys_spec _ _ Hkeyed) as [Hsnd Hall].
  pose proof (sorted_Permutation key_lt fst keyed) as Hperm.
  exists (sorted key_lt fst keyed).*1. split; [|split].
  - rewrite <- Hperm in Hall. revert Hall.
    generalize (sorted key_lt fst keyed). intros l.
    induction 1 as [|[k x] l Hkx _ IH]; [constructor|]. by constructor.
  - apply (StronglySorted_fmap _ (λ a b, key_le a.1 b.1)); [done|].
    apply sorted_StronglySorted.
    + intros a b c. apply key_le_trans.
    + intros a b. apply key_lt_le.
    + intros a b. apply key_not_lt_le.
  - by rewrite Hperm, Hsnd.
Qed.

(** In a list sorted by [key_le], a [True] never comes before a [False] of
    the same identifier. *)
Lemma key_le_hq_order keys (i j : nat) id :
  StronglySorted key_le keys → (i < j)%nat →
  keys !! i = Some (id, true) → keys !! j = Some (id, false) → False.
Proof.
  intros Hsorted. revert i j.
  induction Hsorted as [|k keys Hsorted IH Hall]; intros i j Hij Hi Hj; [done|].
  destruct j as [|j]; [lia|]. destruct i as [|i]; simpl in *.
  - injection Hi as ->. rewrite Forall_forall in Hall.
    specialize (Hall _ (list_elem_of_lookup_2 _ _ _ Hj)).
    destruct Hall as [?|[_ ?]]; simpl in *; [lia|done].
  - apply (IH i j); [lia|done..].
Qed.

(** The key of a variant is read off its ["id"] and ["hq"] entries. *)
Lemma buff_key_Return (x : gmap string json) (k : Z * bool) :
  buff_key x = Return k ↔
  x !! "id" = Some (jint k.1) ∧ x !! "hq" = Some (JBool k.2).
Proof.
  unfold buff_key, jint. destruct k as [id hq]. simpl. split.
  - destruct (x !! "id") as [[| |[z|]| | |]|]; try done.
    destruct (x !! "hq") as [[|b| | | |]|]; try done.
    by intros [= -> ->].
  - by intros [-> ->].
Qed.

(** Every variant that is extracted has an ["hq"] entry. *)
Lemma extract_results_hq results extracted :
  extract_results results [] = Return extracted →
  Forall (λ x, ∃ hq : bool, x !! "hq" = Some (JBool hq)) extracted.
Proof.
  intros Hextract.
  assert (Forall (λ item, is_raw_buff_item item = true) results) as Hraw.
  { apply Forall_forall. intros item Hin.
    destruct (is_raw_buff_item item) eqn:Hitem; [done|].
    rewrite extract_results_not_raw in Hextract; [done|].
    apply Exists_exists. by exists item. }
  rewrite extract_results_raw in Hextract by done. injection Hextract as <-.
  simpl. clear Hraw. induction results as [|item results IH]; [constructor|].
  rewrite bind_cons. apply Forall_app. split; [|done].
  repeat constructor; eexists; by rewrite drop_None_lookup, item_dict_hq.
Qed.

Lemma extract_buff_data_hq post buff_name extracted :
  (extract_buff_data post buff_name).2 = Return extracted →
  Forall (λ x, ∃ hq : bool, x !! "hq" = Some (JBool hq)) extracted.
Proof.
  unfold extract_buff_data. simpl.
  destruct (raise_for_status (post buff_name)); [|done]. cbn.
  destruct (Response.json (post buff_name)) as [page|]; [|done].
  destruct (SearchPage.Results page) as [results|]; [|done].
  apply extract_results_hq.
Qed.

Lemma buff_keys_returns (buffs : list (gmap string json)) :
  Forall (λ x, ∃ k, buff_key x = Return k) buffs →
  ∃ keyed, buff_keys buffs = Return keyed.
Proof.
  induction 1 as [|x buffs [k Hk] _ [keyed IH]]; [by eexists|].
  simpl. rewrite Hk, IH. by eexists.
Qed.

(** C6: when the variants extracted have integer identifiers, as [Buffs]
    declares, the list that is written for the buff type holds the variants
    extracted and no others, in ascending order of the pair of their ["id"]
    and ["hq"] entries, and no record with [hq = True] stands before a record
    with [hq = False] of the same ["id"]. *)
Theorem persisted_buffs_sorted (PARENT_DIR : string)
    (post : string → Response.t SearchPage.t) (buff_name : string)
    (files : gmap string file_content) (extracted : list (gmap string json)) :
  (extract_buff_data post buff_name).2 = Return extracted →
  Forall (λ x, has_int_id x = true) extracted →
  ∃ buffs keys,
    persisted_buffs post buff_name = Return buffs ∧
    main_buff PARENT_DIR post buff_name files
    = Return (<[buff_path PARENT_DIR buff_name := BuffFile buffs]> files) ∧
    buffs ≡ₚ extracted ∧
    Forall2 (λ x k, x !! "id" = Some (jint k.1) ∧ x !! "hq" = Some (JBool k.2))
      buffs keys ∧
    StronglySorted key_le keys ∧
    (∀ (i j : nat) xi xj id,
       (i < j)%nat → buffs !! i = Some xi → buffs !! j = Some xj →
       xi !! "id" = Some (jint id) → xj !! "id" = Some (jint id) →
       xi !! "hq" = Some (JBool true) → xj !! "hq" = Some (JBool false) → False).
Proof.
  intros Hextract Hids.
  assert (Forall (λ x, ∃ k, buff_key x = Return k) extracted) as Hkeys.
  { pose proof (extract_buff_data_hq _ _ _ Hextract) as Hhq.
    rewrite Forall_forall in Hids, Hhq. apply Forall_forall. intros x Hx.
    destruct (Hhq x Hx) as [hq Hxhq]. specialize (Hids x Hx).
    unfold has_int_id in Hids.
    destruct (x !! "id") as [[| |[id|]| | |]|] eqn:Hxid; try done.
    exists (id, hq). by apply buff_key_Return. }
  destruct (buff_keys_returns extracted Hkeys) as [keyed Hkeyed].
  assert (sorted_buffs extracted = Return (snd <$> sorted key_lt fst keyed))
    as Hsorted_buffs.
  { unfold sorted_buffs. by rewrite Hkeyed. }
  destruct (sorted_buffs_spec _ _ Hsorted_buffs) as (keys & Hall & Hsorted & Hperm).
  assert (Forall2 (λ x k, x !! "id" = Some (jint k.1) ∧ x !! "hq" = Some (JBool k.2))
            (snd <$> sorted key_lt fst keyed) keys) as Hlookups.
  { eapply Forall2_impl; [exact Hall|]. intros x k. by apply buff_key_Return. }
  assert (persisted_buffs post buff_name = Return (snd <$> sorted key_lt fst keyed))
    as Hpersisted.
  { unfold persisted_buffs. by rewrite Hextract. }
  exists (snd <$> sorted key_lt fst keyed), keys.
  split; [done|]. split; [|split; [done|split; [done|split; [done|]]]].
  { unfold main_buff. by rewrite Hpersisted. }
  intros i j xi xj id Hij Hi Hj Hidi Hidj Hhqi Hhqj.
  destruct (Forall2_lookup_l _ _ _ _ _ Hlookups Hi) as ([idi hqi] & Hki & Hi1 & Hi2).
  destruct (Forall2_lookup_l _ _ _ _ _ Hlookups Hj) as ([idj hqj] & Hkj & Hj1 & Hj2).
  simpl in Hi1, Hi2, Hj1, Hj2. unfold jint in *.
  rewrite Hidi in Hi1. rewrite Hidj in Hj1. rewrite Hhqi in Hi2. rewrite Hhqj in Hj2.
  injection Hi1 as <-. injection Hj1 as <-. injection Hi2 as <-. injection Hj2 as <-.
  exact (key_le_hq_order keys i j id Hsorted Hij Hki Hkj).
Qed.

Lemma persisted_buffs_sorted_witness :
  ∃ extracted,
    (extract_buff_data (λ _, search_of [tea; soup]) "Meal").2 = Return extracted ∧
    ∃ buffs keys,
      persisted_buffs (λ _, search_of [tea; soup]) "Meal" = Return buffs ∧
      main_buff "/repo" (λ _, search_of [tea; soup]) "Meal" ∅
      = Return (<[buff_path "/repo" "Meal" := BuffFile buffs]> ∅) ∧
      buffs ≡ₚ extracted ∧
      Forall2 (λ x k, x !! "id" = Some (jint k.1) ∧ x !! "hq" = Some (JBool k.2))
        buffs keys ∧
      StronglySorted key_le keys ∧
      (∀ (i j : nat) xi xj id,
         (i < j)%nat → buffs !! i = Some xi → buffs !! j = Some xj →
         xi !! "id" = Some (jint id) → xj !! "id" = Some (jint id) →
         xi !! "hq" = Some (JBool true) → xj !! "hq" = Some (JBool false) → False).
Proof.
  eexists. split; [reflexivity|].
  apply (persisted_buffs_sorted "/repo" (λ _, search_of [tea; soup]) "Meal" ∅).
  - reflexivity.
  - repeat constructor.
Defined.

(** The items of the scenario are extracted in the order 36116, 36116,
    4717, 4717 and written in the order 4717, 4717, 36116, 36116, each with
    [hq = False] first. *)
Example persisted_buffs_order :
  ∃ extracted buffs,
    (extract_buff_data (λ _, search_of [tea; soup]) "Meal").2 = Return extracted ∧
    persisted_buffs (λ _, search_of [tea; soup]) "Meal" = Return buffs ∧
    (λ x, (x !! "id", x !! "hq")) <$> extracted
    = [(Some (jint 36116), Some (JBool false)); (Some (jint 36116), Some (JBool true));
       (Some (jint 4717), Some (JBool false)); (Some (jint 4717), Some (JBool true))] ∧
    (λ x, (x !! "id", x !! "hq")) <$> buffs
    = [(Some (jint 4717), Some (JBool false)); (Some (jint 4717), Some (JBool true));
       (Some (jint 36116), Some (JBool false)); (Some (jint 36116), Some (JBool true))].
Proof. eexists _, _. repeat split; reflexivity. Qed.

(** The sort goes through for raw buff items that have an integer [ID]. *)
Lemma buff_key_item_dict item (id : Z) hq :
  source_field item "ID" = Some (jint id) →
  buff_key (drop_None (item_dict item hq)) = Return (id, hq).
Proof.
  intros Hid. unfold buff_key. rewrite !drop_None_lookup, item_dict_hq.
  replace (item_dict item hq !! "id") with (Some (jint id)); [done|].
  symmetry. unfold item_dict. simpl list_to_map. rewrite lookup_insert_eq.
  by rewrite Hid.
Qed.

Lemma buff_keys_item_variants results :
  Forall (λ item, ∃ id : Z, source_field item "ID" = Some (jint id)) results →
  ∃ keyed, buff_keys (results ≫= item_variants) = Return keyed.
Proof.
  induction 1 as [|item results [id Hid] _ [keyed IH]]; [by eexists|].
  rewrite bind_cons. unfold item_variants at 1. simpl.
  rewrite !(buff_key_item_dict item id) by done. cbn. rewrite IH. by eexists.
Qed.

Lemma persisted_buffs_returns
    (post : string → Response.t SearchPage.t) (buff_name : string)
    (page : SearchPage.t) (results : list json) :
  raise_for_status (post buff_name) = Return () →
  Response.json (post buff_name) = Some page →
  SearchPage.Results page = Some results →
  Forall (λ item, is_raw_buff_item item = true) results →
  Forall (λ item, ∃ id : Z, source_field item "ID" = Some (jint id)) results →
  ∃ buffs, persisted_buffs post buff_name = Return buffs.
Proof.
  intros Hstatus Hjson Hresults Hraw Hids.
  unfold persisted_buffs, extract_buff_data. rewrite Hstatus, Hjson, Hresults. cbn.
  rewrite extract_results_raw by done. cbn. unfold sorted_buffs.
  destruct (buff_keys_item_variants results Hids) as [keyed ->]. by eexists.
Qed.

(** ** handle_api_calls *)

Lemma in_flight_from_app running events1 events2 :
  in_flight_from running (events1 ++ events2)
  = in_flight_from (in_flight_from running events1) events2.
Proof. apply foldl_app. Qed.

Lemma respects_app running events1 events2 :
  respects running (events1 ++ events2) ↔
  respects running events1 ∧ respects (in_flight_from running events1) events2.
Proof.
  revert running. induction events1 as [|e events1 IH]; intros running; simpl.
  - tauto.
  - rewrite IH. unfold in_flight_from. simpl. tauto.
Qed.

Lemma respects_prefix running events p :
  respects running events → (length running ≤ 20)%nat → p `prefix_of` events →
  (length (in_flight_from running p) ≤ 20)%nat.
Proof.
  revert running events. induction p as [|e p IH]; intros running events; [done|].
  intros Hresp Hlen Hprefix.
  destruct events as [|e' events]; [by apply prefix_nil_not in Hprefix|].
  pose proof (prefix_cons_inv_1 _ _ _ _ Hprefix) as ->.
  apply prefix_cons_inv_2 in Hprefix.
  destruct Hresp as [[Hstep _] Hresp].
  by apply (IH _ events).
Qed.

Lemma respects_Start running p j s :
  respects running (p ++ Start j :: s) →
  ∀ x, x ∈ in_flight_from running p → batch x = batch j.
Proof. rewrite respects_app. by intros [_ [[_ Hbatch] _]]. Qed.

Lemma respects_joins running threads :
  (length running ≤ 20)%nat → respects running (Join <$> threads).
Proof.
  revert running. induction threads as [|t threads IH]; intros running Hlen; [done|].
  assert (length (filter (λ j, j ≠ t) running) ≤ 20)%nat as Hlen'.
  { pose proof (length_filter (λ j, j ≠ t) running). lia. }
  split; [done|]. by apply IH.
Qed.

Lemma in_flight_joins running threads :
  (∀ x, x ∈ running → x ∈ threads) → in_flight_from running (Join <$> threads) = [].
Proof.
  revert running. induction threads as [|t threads IH]; intros running Hsub.
  - destruct running as [|x running]; [done|].
    specialize (Hsub x ltac:(by left)). by apply elem_of_nil in Hsub.
  - simpl. apply IH. intros x [Hx Hin]%list_elem_of_filter.
    specialize (Hsub x Hin). apply elem_of_cons in Hsub as [?|?]; done.
Qed.

Lemma started_joins threads : started (Join <$> threads) = [].
Proof. by induction threads. Qed.

(** The threads in flight when page [i] is about to be started are the pages
    of its batch before it. *)
Lemma handle_api_calls_loop_spec (n : nat) (i : Z) :
  1 ≤ i →
  let threads := seqZ (i - (i - 1) mod 20) ((i - 1) mod 20) in
  let events := handle_api_calls_loop (seqZ i (Z.of_nat n)) threads in
  respects threads events ∧
  in_flight_from threads events = [] ∧
  started events = seqZ i (Z.of_nat n).
Proof.
  revert i. induction n as [|n IH]; intros i Hi threads events;
    pose proof (Z.mod_pos_bound (i - 1) 20 ltac:(lia)) as Hk.
  - unfold events. change (seqZ i (Z.of_nat 0)) with (@nil Z).
    cbn [handle_api_calls_loop]. split; [|split].
    + apply respects_joins. unfold threads. rewrite length_seqZ. lia.
    + by apply in_flight_joins.
    + apply started_joins.
  - assert (length threads = Z.to_nat ((i - 1) mod 20)) as Hlen
      by apply length_seqZ.
    assert (threads ++ [i] = seqZ (i - (i - 1) mod 20) ((i - 1) mod 20 + 1)) as Hsnoc.
    { rewrite seqZ_app by lia. unfold threads. f_equal.
      rewrite seqZ_cons by lia. rewrite seqZ_nil by lia. f_equal. lia. }
    assert (event_ok threads (Start i)) as Hok.
    { split.
      - simpl. rewrite length_app, Hlen. simpl. lia.
      - intros x Hx. unfold threads in Hx. apply elem_of_seqZ in Hx.
        unfold batch. Z.div_mod_to_equations. lia. }
    unfold events. rewrite seqZ_cons by lia.
    replace (Z.pred (Z.of_nat (S n))) with (Z.of_nat n) by lia.
    specialize (IH (Z.succ i) ltac:(lia)). simpl in IH.
    replace (Z.succ i - 1) with i in IH by lia.
    simpl handle_api_calls_loop. case_bool_decide as Hmod.
    + rewrite Hmod, Z.sub_0_r in IH. change (seqZ (Z.succ i) 0) with (@nil Z) in IH.
      destruct IH as (Hresp & Hflight & Hstarted).
      assert (in_flight_from (threads ++ [i]) (Join <$> threads ++ [i]) = []) as Hjoined
        by by apply in_flight_joins.
      split; [|split].
      * split; [done|]. simpl. apply respects_app. split.
        -- apply respects_joins. by destruct Hok.
        -- by rewrite Hjoined.
      * unfold in_flight_from at 1. simpl.
        change (foldl in_flight_step ?r ?e) with (in_flight_from r e).
        by rewrite in_flight_from_app, Hjoined.
      * unfold started. simpl. rewrite omap_app.
        change (omap _ ?e) with (started e) at 1.
        rewrite started_joins. simpl. by f_equal.
    + assert (i mod 20 = (i - 1) mod 20 + 1) as Hnext
        by (Z.div_mod_to_equations; lia).
      rewrite Hnext in IH.
      replace (Z.succ i - ((i - 1) mod 20 + 1)) with (i - (i - 1) mod 20) in IH by lia.
      rewrite <- Hsnoc in IH.
      destruct IH as (Hresp & Hflight & Hstarted).
      split; [|split].
      * by split.
      * done.
      * unfold started. simpl. by f_equal.
Qed.

(** C8: for every page count the pages 1 to [pages_amount] are started in
    order, every one once; never are more than 20 threads in flight; when a
    page is started, the threads in flight are of its own batch of 20, all
    earlier batches having been joined; and at the end every thread has been
    joined. *)
Theorem handle_api_calls_batches (pages_amount : Z) :
  let events := handle_api_calls_events pages_amount in
  started events = seqZ 1 pages_amount ∧
  (∀ p, p `prefix_of` events → (length (in_flight p) ≤ 20)%nat) ∧
  (∀ p j s, events = p ++ Start j :: s → ∀ x, x ∈ in_flight p → batch x = batch j) ∧
  in_flight events = [].
Proof.
  intros events.
  assert (seqZ 1 pages_amount = seqZ 1 (Z.of_nat (Z.to_nat pages_amount))) as Hpages.
  { unfold seqZ. by rewrite Nat2Z.id. }
  destruct (handle_api_calls_loop_spec (Z.to_nat pages_amount) 1 ltac:(lia))
    as (Hresp & Hflight & Hstarted).
  change (seqZ (1 - (1 - 1) mod 20) ((1 - 1) mod 20)) with (@nil Z) in *.
  rewrite <- Hpages in *.
  split; [done|]. split; [|split; [|done]].
  - intros p Hp. apply (respects_prefix [] events p); [done|simpl; lia|done].
  - intros p j s Hsplit. apply (respects_Start [] p j s). by rewrite <- Hsplit.
Qed.

Example handle_api_calls_events_41 :
  handle_api_calls_events 41 =
  (Start <$> seqZ 1 20) ++ (Join <$> seqZ 1 20) ++
  (Start <$> seqZ 21 20) ++ (Join <$> seqZ 21 20) ++ [Start 41; Join 41].
Proof. reflexivity. Qed.

(** * Further properties *)

(** ** construct_recipe_json *)

Lemma construct_recipe_json_inv (r : RecipeJSONType.t)
    (table : RecipeJSONLevelTableType.t) (out : RecipeType.t) :
  RecipeJSONType.RecipeLevelTable r = Some table →
  construct_recipe_json r = Return (Some out) →
  ∃ difficulty durability maxQuality,
    out = {|
      RecipeType.id := RecipeJSONType.ID r;
      RecipeType.name := {|
        LocaleNames.en := RecipeJSONType.Name_en r;
        LocaleNames.de := RecipeJSONType.Name_de r;
        LocaleNames.fr := RecipeJSONType.Name_fr r;
        LocaleNames.ja := RecipeJSONType.Name_ja r |};
      RecipeType.baseLevel := RecipeJSONLevelTableType.ClassJobLevel table;
      RecipeType.level := RecipeJSONLevelTableType.ID table;
      RecipeType.difficulty := difficulty;
      RecipeType.durability := durability;
      RecipeType.maxQuality := maxQuality;
      RecipeType.suggestedCraftsmanship :=
        RecipeJSONLevelTableType.SuggestedCraftsmanship table;
      RecipeType.suggestedControl := RecipeJSONLevelTableType.SuggestedControl table;
      RecipeType.progressDivider := RecipeJSONLevelTableType.ProgressDivider table;
      RecipeType.progressModifier := RecipeJSONLevelTableType.ProgressModifier table;
      RecipeType.qualityDivider := RecipeJSONLevelTableType.QualityDivider table;
      RecipeType.qualityModifier := RecipeJSONLevelTableType.QualityModifier table;
      RecipeType.stars :=
        if bool_decide (RecipeJSONLevelTableType.Stars table ≠ 0)
        then Some (RecipeJSONLevelTableType.Stars table) else None
    |}.
Proof.
  intros Htable. unfold construct_recipe_json. rewrite Htable.
  destruct (floor_scaled (RecipeJSONLevelTableType.Difficulty table) _)
    as [difficulty|]; [|done].
  destruct (floor_scaled (PyNum.PInt (RecipeJSONLevelTableType.Durability table)) _)
    as [durability|]; [|done].
  destruct (floor_scaled (PyNum.PInt (RecipeJSONLevelTableType.Quality table)) _)
    as [maxQuality|]; [|done].
  intros [= <-]. by eexists _, _, _.
Qed.

(** X1: a recipe that is returned carries the identifier and the four names
    of the source record, has the [ClassJobLevel] of the level table as its
    [baseLevel] and the [ID] of the level table as its [level], and takes the
    two suggested stats and the four dividers and modifiers over as they
    are. *)
Theorem construct_recipe_json_passthrough (r : RecipeJSONType.t)
    (table : RecipeJSONLevelTableType.t) (out : RecipeType.t) :
  RecipeJSONType.RecipeLevelTable r = Some table →
  construct_recipe_json r = Return (Some out) →
  RecipeType.id out = RecipeJSONType.ID r ∧
  RecipeType.name out =
    LocaleNames.mk (RecipeJSONType.Name_en r) (RecipeJSONType.Name_de r)
      (RecipeJSONType.Name_fr r) (RecipeJSONType.Name_ja r) ∧
  RecipeType.baseLevel out = RecipeJSONLevelTableType.ClassJobLevel table ∧
  RecipeType.level out = RecipeJSONLevelTableType.ID table ∧
  RecipeType.suggestedCraftsmanship out
    = RecipeJSONLevelTableType.SuggestedCraftsmanship table ∧
  RecipeType.suggestedControl out = RecipeJSONLevelTableType.SuggestedControl table ∧
  RecipeType.progressDivider out = RecipeJSONLevelTableType.ProgressDivider table ∧
  RecipeType.progressModifier out = RecipeJSONLevelTableType.ProgressModifier table ∧
  RecipeType.qualityDivider out = RecipeJSONLevelTableType.QualityDivider table ∧
  RecipeType.qualityModifier out = RecipeJSONLevelTableType.QualityModifier table.
Proof.
  intros Htable Hout.
  destruct (construct_recipe_json_inv r table out Htable Hout) as (? & ? & ? & ->).
  by repeat split.
Qed.

Lemma construct_recipe_json_passthrough_witness :
  ∃ out,
    construct_recipe_json sample_recipe = Return (Some out) ∧
    RecipeType.id out = 34567 ∧
    RecipeType.name out =
      LocaleNames.mk "Rarefied Sykon Bavarois" "Sykon-Bavarois" "Bavarois au sykon"
        "Sykon Bavarois" ∧
    RecipeType.baseLevel out = 90 ∧
    RecipeType.level out = 580 ∧
    RecipeType.suggestedCraftsmanship out = 3180 ∧
    RecipeType.suggestedControl out = 3080 ∧
    RecipeType.progressDivider out = 130 ∧
    RecipeType.progressModifier out = 80 ∧
    RecipeType.qualityDivider out = 115 ∧
    RecipeType.qualityModifier out = 70.
Proof.
  eexists. split; [reflexivity|].
  apply (construct_recipe_json_passthrough sample_recipe sample_table); reflexivity.
Defined.

(** A factor that is NaN makes the scaled value raise: [ValueError] from
    [math.floor], or [OverflowError] before it when the base is an [int]
    beyond the doubles. *)
Lemma floor_scaled_nan (base : PyNum.t) :
  floor_scaled base (PyNum.PFloat S754_nan) = Raise ValueError ∨
  floor_scaled base (PyNum.PFloat S754_nan) = Raise OverflowError.
Proof.
  unfold floor_scaled. destruct base as [b|f]; simpl PyNum.mul.
  - destruct (PyNum.float_of_int b) as [f|e] eqn:Hf.
    + left. cbn. by destruct f.
    + right. unfold PyNum.float_of_int in Hf.
      destruct (binary_normalize _ _ _ _ _); by simplify_eq.
  - left. by destruct f.
Qed.

(** X2: a record with a level table one of whose three factors is NaN gives
    no recipe: [construct_recipe_json] raises. *)
Theorem construct_recipe_json_nan_factor (r : RecipeJSONType.t) :
  is_Some (RecipeJSONType.RecipeLevelTable r) →
  RecipeJSONType.DifficultyFactor r = PyNum.PFloat S754_nan ∨
  RecipeJSONType.DurabilityFactor r = PyNum.PFloat S754_nan ∨
  RecipeJSONType.QualityFactor r = PyNum.PFloat S754_nan →
  ∃ e, construct_recipe_json r = Raise e.
Proof.
  intros [table Htable] Hnan. unfold construct_recipe_json. rewrite Htable.
  destruct (floor_scaled (RecipeJSONLevelTableType.Difficulty table) _)
    as [difficulty|e] eqn:Hd; [|by eexists].
  destruct (floor_scaled (PyNum.PInt (RecipeJSONLevelTableType.Durability table)) _)
    as [durability|e] eqn:Hu; [|by eexists].
  destruct (floor_scaled (PyNum.PInt (RecipeJSONLevelTableType.Quality table)) _)
    as [maxQuality|e] eqn:Hq; [|by eexists].
  exfalso. destruct Hnan as [Hnan|[Hnan|Hnan]]; rewrite Hnan in *.
  - destruct (floor_scaled_nan (RecipeJSONLevelTableType.Difficulty table)); congruence.
  - destruct (floor_scaled_nan (PyNum.PInt (RecipeJSONLevelTableType.Durability table)));
      congruence.
  - destruct (floor_scaled_nan (PyNum.PInt (RecipeJSONLevelTableType.Quality table)));
      congruence.
Qed.

Lemma construct_recipe_json_nan_factor_witness :
  ∃ e, construct_recipe_json nan_recipe = Raise e.
Proof.
  apply (construct_recipe_json_nan_factor nan_recipe).
  - by eexists.
  - right. right. reflexivity.
Defined.

(** ** api_call *)

Lemma api_call_results_app results1 results2 recipes :
  api_call_results (results1 ++ results2) recipes =
  match api_call_results results1 recipes with
  | (recipes', Return _) => api_call_results results2 recipes'
  | (recipes', Raise e) => (recipes', Raise e)
  end.
Proof.
  revert recipes. induction results1 as [|r results1 IH]; intros recipes; simpl; [done|].
  destruct (RecipeJSONType.ClassJob r); [|done].
  by destruct (construct_recipe_json r) as [[constructed|]|].
Qed.

(** X3: an exception of [construct_recipe_json] ends the loop over the
    results of the page: what the records before it gave stays in the
    dictionary, the records after it are not looked at, and the exception
    leaves [api_call]. *)
Theorem api_call_results_raise (before after : list RecipeJSONType.t)
    (r : RecipeJSONType.t) (key : string) (e : exn)
    (recipes recipes' : gmap string (list RecipeType.t)) :
  api_call_results before recipes = (recipes', Return ()) →
  RecipeJSONType.ClassJob r = Some key →
  construct_recipe_json r = Raise e →
  api_call_results (before ++ r :: after) recipes = (recipes', Raise e).
Proof.
  intros Hbefore Hkey Hraise. rewrite api_call_results_app, Hbefore.
  simpl. by rewrite Hkey, Hraise.
Qed.

Lemma api_call_results_raise_witness :
  ∃ out,
    construct_recipe_json sample_recipe = Return (Some out) ∧
    api_call_results ([sample_recipe] ++ nan_recipe :: [sample_recipe]) ∅
    = ({["Culinarian" := [out]]}, Raise ValueError).
Proof.
  eexists. split; [reflexivity|].
  apply (api_call_results_raise [sample_recipe] [sample_recipe] nan_recipe "Culinarian");
    reflexivity.
Defined.

Lemma append_recipe_lookup key key' out (recipes : gmap string (list RecipeType.t)) :
  default [] (append_recipe key out recipes !! key') =
  default [] (recipes !! key') ++ (if bool_decide (key = key') then [out] else []).
Proof.
  unfold append_recipe. case_bool_decide as Hkey.
  - subst key'. by rewrite lookup_insert_eq.
  - rewrite lookup_insert_ne by done. by rewrite app_nil_r.
Qed.

(** X4: when the loop over the results of a page runs to its end, each
    category list has grown at its end by the recipes of the records of that
    category, in the order of the page; the records of other categories and
    those without level table add nothing to it. *)
Theorem api_call_results_grouped (results : list RecipeJSONType.t)
    (recipes recipes' : gmap string (list RecipeType.t)) (key : string) :
  api_call_results results recipes = (recipes', Return ()) →
  default [] (recipes' !! key) = default [] (recipes !! key) ++ recipes_for key results.
Proof.
  revert recipes. induction results as [|r results IH]; intros recipes; simpl.
  - intros [= <-]. by rewrite app_nil_r.
  - unfold recipes_for. simpl. fold (recipes_for key results).
    destruct (RecipeJSONType.ClassJob r) as [key0|]; [|done].
    destruct (construct_recipe_json r) as [[out|]|]; [| |done].
    + intros Hrest. rewrite (IH _ Hrest), append_recipe_lookup.
      rewrite <- app_assoc. f_equal.
      case_bool_decide as H1; case_bool_decide as H2; simplify_eq; done.
    + intros Hrest. rewrite (IH _ Hrest). by case_bool_decide.
Qed.

Lemma api_call_results_grouped_witness :
  ∃ recipes',
    api_call_results [sample_recipe; recipe_without_table; sample_recipe] ∅
    = (recipes', Return ()) ∧
    default [] (recipes' !! "Culinarian")
    = default [] ((∅ : gmap string (list RecipeType.t)) !! "Culinarian") ++
      recipes_for "Culinarian" [sample_recipe; recipe_without_table; sample_recipe].
Proof.
  eexists. split; [reflexivity|].
  apply (api_call_results_grouped
           [sample_recipe; recipe_without_table; sample_recipe] ∅).
  reflexivity.
Defined.

(** Whatever happens, the loop only appends. *)
Lemma api_call_results_extends results (recipes : gmap string (list RecipeType.t))
    key l :
  recipes !! key = Some l →
  ∃ l', (api_call_results results recipes).1 !! key = Some (l ++ l').
Proof.
  revert recipes l. induction results as [|r results IH]; intros recipes l Hl; simpl.
  - exists []. by rewrite app_nil_r.
  - destruct (RecipeJSONType.ClassJob r) as [key0|];
      [|exists []; by rewrite app_nil_r].
    destruct (construct_recipe_json r) as [[out|]|];
      [| by apply IH | exists []; by rewrite app_nil_r].
    destruct (decide (key0 = key)) as [->|Hne].
    + destruct (IH (append_recipe key out recipes) (l ++ [out])) as [l' Hl'].
      { unfold append_recipe. by rewrite lookup_insert_eq, Hl. }
      exists (out :: l'). by rewrite Hl', <- app_assoc.
    + apply IH. unfold append_recipe. by rewrite lookup_insert_ne.
Qed.

Lemma api_call_extends get_page page_id (w : world) key l :
  recipes w !! key = Some l →
  ∃ l', recipes (api_call get_page page_id w).1 !! key = Some (l ++ l').
Proof.
  intros Hl. unfold api_call.
  destruct (Response.json (get_page page_id)) as [page_data|];
    [|exists []; by rewrite app_nil_r].
  destruct (RecipePage.Results page_data) as [results|];
    [|exists []; by rewrite app_nil_r].
  destruct (api_call_results_extends results (recipes w) key l Hl) as [l' Hl'].
  exists l'. by destruct (api_call_results results (recipes w)).
Qed.

(** X5: the page tasks never remove or reorder what the dictionary holds: a
    category list that is there before a run of pages is a prefix of the list
    of that category after it, whichever of the pages fail. *)
Theorem run_pages_extends (get_page : Z → Response.t RecipePage.t) (pages : list Z)
    (w : world) (key : string) (l : list RecipeType.t) :
  recipes w !! key = Some l →
  ∃ l', recipes (run_pages get_page pages w) !! key = Some (l ++ l').
Proof.
  revert w l. induction pages as [|page_id pages IH]; intros w l Hl.
  - exists []. by rewrite app_nil_r.
  - destruct (api_call_extends get_page page_id w key l Hl) as [l1 Hl1].
    destruct (IH (run_page get_page w page_id) (l ++ l1) Hl1) as [l2 Hl2].
    exists (l1 ++ l2). simpl. by rewrite Hl2, <- app_assoc.
Qed.

Lemma run_pages_extends_witness :
  ∃ l',
    recipes (run_pages three_pages [1; 2; 3]
               (mk_world {["Culinarian" := [sample_out]]} [] []))
      !! "Culinarian"
    = Some ([sample_out] ++ l').
Proof.
  apply (run_pages_extends three_pages [1; 2; 3]
           (mk_world {["Culinarian" := [sample_out]]} [] [])).
  reflexivity.
Defined.

(** ** handle_api_calls *)

Lemma api_call_requests get_page page_id (w : world) :
  requests (api_call get_page page_id w).1 = requests w ++ [GetRecipePage page_id].
Proof.
  unfold api_call.
  destruct (Response.json (get_page page_id)) as [page_data|]; [|done].
  destruct (RecipePage.Results page_data) as [results|]; [|done].
  by destruct (api_call_results results (recipes w)).
Qed.

Lemma run_pages_requests get_page pages (w : world) :
  requests (run_pages get_page pages w) = requests w ++ (GetRecipePage <$> pages).
Proof.
  revert w. induction pages as [|page_id pages IH]; intros w; simpl.
  - by rewrite app_nil_r.
  - change (foldl _ ?w' pages) with (run_pages get_page pages w').
    rewrite IH. unfold run_page. by rewrite api_call_requests, <- app_assoc.
Qed.

(** X6: whatever the responses are, every page from 1 to [pages_amount] is
    requested once and no other request is made: no page is fetched again
    after a failure. *)
Theorem handle_api_calls_requests (get_page : Z → Response.t RecipePage.t)
    (pages_amount : Z) (w : world) :
  requests (handle_api_calls get_page pages_amount w)
  = requests w ++ (GetRecipePage <$> seqZ 1 pages_amount).
Proof. unfold handle_api_calls. by rewrite run_pages_requests. Qed.

Lemma api_call_stdout get_page page_id (w : world) :
  stdout (api_call get_page page_id w).1
  = stdout w ++ (if warned get_page page_id then [too_many_requests] else []).
Proof.
  unfold api_call, warned.
  destruct (Response.json (get_page page_id)) as [page_data|].
  - rewrite (bool_decide_eq_true_2 (is_Some (Some page_data))) by eauto.
    rewrite andb_true_r.
    destruct (RecipePage.Results page_data) as [results|].
    + destruct (api_call_results results (recipes w)). simpl.
      case_bool_decide; [done|by rewrite app_nil_r].
    + simpl. case_bool_decide; [done|by rewrite app_nil_r].
  - rewrite (bool_decide_eq_false_2 (is_Some None)) by by intros [? ?].
    rewrite andb_false_r. simpl. by rewrite app_nil_r.
Qed.

Lemma run_pages_stdout get_page pages (w : world) :
  stdout (run_pages get_page pages w)
  = stdout w ++
    replicate (length (filter (λ p, warned get_page p = true) pages)) too_many_requests.
Proof.
  revert w. induction pages as [|page_id pages IH]; intros w; simpl.
  - by rewrite app_nil_r.
  - change (foldl _ ?w' pages) with (run_pages get_page pages w').
    rewrite IH. unfold run_page. rewrite api_call_stdout, <- app_assoc. f_equal.
    rewrite filter_cons. by destruct (warned get_page page_id).
Qed.

(** X7: the message is printed once for every page from 1 to
    [pages_amount] that answers with status 429 and a JSON body, and nothing
    else is printed; a 429 response whose body is not JSON is not reported. *)
Theorem handle_api_calls_stdout (get_page : Z → Response.t RecipePage.t)
    (pages_amount : Z) (w : world) :
  stdout (handle_api_calls get_page pages_amount w)
  = stdout w ++
    replicate (length (filter (λ p, warned get_page p = true) (seqZ 1 pages_amount)))
      too_many_requests.
Proof. unfold handle_api_calls. by rewrite run_pages_stdout. Qed.

(** Where a recipe in the dictionary comes from. *)
Lemma api_call_results_origin results (recipes : gmap string (list RecipeType.t))
    key l out :
  (api_call_results results recipes).1 !! key = Some l → out ∈ l →
  out ∈ default [] (recipes !! key) ∨
  ∃ r, r ∈ results ∧ RecipeJSONType.ClassJob r = Some key ∧
       construct_recipe_json r = Return (Some out).
Proof.
  revert recipes. induction results as [|r results IH]; intros recipes; simpl.
  - intros Hl Hin. left. simpl in Hl. by rewrite Hl.
  - destruct (RecipeJSONType.ClassJob r) as [key0|] eqn:Hkey;
      [|intros Hl Hin; left; simpl in Hl; by rewrite Hl].
    destruct (construct_recipe_json r) as [[constructed|]|] eqn:Hr;
      [| |intros Hl Hin; left; simpl in Hl; by rewrite Hl].
    + intros Hl Hin. destruct (IH _ Hl Hin) as [Hold|(r' & Hr' & Hkey' & Hout)].
      * rewrite append_recipe_lookup in Hold.
        apply elem_of_app in Hold as [Hold|Hnew]; [by left|].
        case_bool_decide; [|by apply elem_of_nil in Hnew].
        apply list_elem_of_singleton in Hnew. simplify_eq.
        right. exists r. split; [by left|done].
      * right. exists r'. split; [by right|done].
    + intros Hl Hin. destruct (IH _ Hl Hin) as [Hold|(r' & Hr' & Hkey' & Hout)];
        [by left|].
      right. exists r'. split; [by right|done].
Qed.

Lemma api_call_origin get_page page_id (w : world) key l out :
  recipes (api_call get_page page_id w).1 !! key = Some l → out ∈ l →
  out ∈ default [] (recipes w !! key) ∨
  ∃ page_data results r,
    Response.json (get_page page_id) = Some page_data ∧
    RecipePage.Results page_data = Some results ∧
    r ∈ results ∧ RecipeJSONType.ClassJob r = Some key ∧
    construct_recipe_json r = Return (Some out).
Proof.
  unfold api_call.
  destruct (Response.json (get_page page_id)) as [page_data|];
    [|simpl; intros Hl Hin; left; simpl in Hl; by rewrite Hl].
  destruct (RecipePage.Results page_data) as [results|] eqn:Hres;
    [|simpl; intros Hl Hin; left; simpl in Hl; by rewrite Hl].
  destruct (api_call_results results (recipes w)) as [recipes' res] eqn:Hloop.
  simpl. intros Hl Hin.
  destruct (api_call_results_origin results (recipes w) key l out) as [?|(r & ? & ? & ?)];
    [by rewrite Hloop|done|by left|].
  right. by exists page_data, results, r.
Qed.

Lemma run_pages_origin get_page pages (w : world) key l out :
  recipes (run_pages get_page pages w) !! key = Some l → out ∈ l →
  out ∈ default [] (recipes w !! key) ∨
  ∃ page_id page_data results r,
    page_id ∈ pages ∧
    Response.json (get_page page_id) = Some page_data ∧
    RecipePage.Results page_data = Some results ∧
    r ∈ results ∧ RecipeJSONType.ClassJob r = Some key ∧
    construct_recipe_json r = Return (Some out).
Proof.
  revert w. induction pages as [|page_id pages IH]; intros w; simpl.
  - intros Hl Hin. left. simpl in Hl. by rewrite Hl.
  - change (foldl _ ?w' pages) with (run_pages get_page pages w').
    intros Hl Hin.
    destruct (IH _ Hl Hin) as [Hold|(p & pd & results & r & Hp & ?)].
    + unfold run_page in Hold.
      destruct (recipes (api_call get_page page_id w).1 !! key) as [l0|] eqn:Hl0;
        [|by apply elem_of_nil in Hold].
      destruct (api_call_origin get_page page_id w key l0 out Hl0 Hold)
        as [?|(pd & results & r & ?)]; [by left|].
      right. exists page_id, pd, results, r. split; [by left|done].
    + right. exists p, pd, results, r. split; [by right|done].
Qed.

(** X8: every recipe of the dictionary [handle_api_calls] returns was
    constructed from a record of the results of one of the pages 1 to
    [pages_amount], a record of the category it is listed under. *)
Theorem handle_api_calls_origin (get_page : Z → Response.t RecipePage.t)
    (pages_amount : Z) (w : world) (key : string) (l : list RecipeType.t)
    (out : RecipeType.t) :
  recipes (handle_api_calls get_page pages_amount w) !! key = Some l → out ∈ l →
  ∃ page_id page_data results r,
    1 ≤ page_id ≤ pages_amount ∧
    Response.json (get_page page_id) = Some page_data ∧
    RecipePage.Results page_data = Some results ∧
    r ∈ results ∧ RecipeJSONType.ClassJob r = Some key ∧
    construct_recipe_json r = Return (Some out).
Proof.
  unfold handle_api_calls. intros Hl Hin.
  destruct (run_pages_origin _ _ _ _ _ _ Hl Hin)
    as [Hold|(p & pd & results & r & Hp & ?)].
  - simpl in Hold. rewrite lookup_empty in Hold. by apply elem_of_nil in Hold.
  - exists p, pd, results, r. split; [|done]. apply elem_of_seqZ in Hp. lia.
Qed.

Lemma handle_api_calls_origin_witness :
  ∃ out,
    construct_recipe_json sample_recipe = Return (Some out) ∧
    ∃ page_id page_data results r,
      1 ≤ page_id ≤ 3 ∧
      Response.json (three_pages page_id) = Some page_data ∧
      RecipePage.Results page_data = Some results ∧
      r ∈ results ∧ RecipeJSONType.ClassJob r = Some "Culinarian" ∧
      construct_recipe_json r = Return (Some out).
Proof.
  eexists. split; [reflexivity|].
  eapply (handle_api_calls_origin three_pages 3 empty_world "Culinarian").
  - reflexivity.
  - left.
Defined.

(** A list is in the dictionary from its first [append] on. *)
Lemma api_call_results_nonempty results (recipes : gmap string (list RecipeType.t)) :
  (∀ key l, recipes !! key = Some l → l ≠ []) →
  ∀ key l, (api_call_results results recipes).1 !! key = Some l → l ≠ [].
Proof.
  revert recipes. induction results as [|r results IH]; intros recipes Hinv; simpl;
    [done|].
  destruct (RecipeJSONType.ClassJob r) as [key0|]; [|done].
  destruct (construct_recipe_json r) as [[out|]|]; [|by apply IH|done].
  apply IH. intros key l. unfold append_recipe.
  destruct (decide (key0 = key)) as [->|Hne].
  - rewrite lookup_insert_eq. intros [= <-]. by destruct (default [] _).
  - rewrite lookup_insert_ne by done. apply Hinv.
Qed.

Lemma run_pages_nonempty get_page pages (w : world) :
  (∀ key l, recipes w !! key = Some l → l ≠ []) →
  ∀ key l, recipes (run_pages get_page pages w) !! key = Some l → l ≠ [].
Proof.
  revert w. induction pages as [|page_id pages IH]; intros w Hinv; [done|].
  simpl. apply IH. unfold run_page, api_call.
  destruct (Response.json (get_page page_id)) as [page_data|]; [|done].
  destruct (RecipePage.Results page_data) as [results|]; [|done].
  pose proof (api_call_results_nonempty results (recipes w) Hinv) as Hne.
  by destruct (api_call_results results (recipes w)).
Qed.

(** X9: the dictionary [handle_api_calls] returns has no category with an
    empty list: a key appears with its first recipe, so that
    [save_data_to_json] writes no file without records. *)
Theorem handle_api_calls_nonempty (get_page : Z → Response.t RecipePage.t)
    (pages_amount : Z) (w : world) (key : string) (l : list RecipeType.t) :
  recipes (handle_api_calls get_page pages_amount w) !! key = Some l → l ≠ [].
Proof.
  unfold handle_api_calls. apply run_pages_nonempty.
  intros key' l'. simpl. by rewrite lookup_empty.
Qed.

Lemma handle_api_calls_nonempty_witness :
  ∃ l,
    recipes (handle_api_calls three_pages 3 empty_world) !! "Culinarian" = Some l ∧
    l ≠ [].
Proof.
  eexists. split; [reflexivity|].
  apply (handle_api_calls_nonempty three_pages 3 empty_world "Culinarian").
  reflexivity.
Defined.

(** X10: with a page count of 0 or less no thread is started, nothing is
    requested or printed, the dictionary returned is empty, and
    [save_data_to_json] leaves the files as they are. *)
Theorem handle_api_calls_no_pages (PARENT_DIR : string)
    (get_page : Z → Response.t RecipePage.t) (pages_amount : Z) (w : world)
    (files : gmap string file_content) :
  pages_amount ≤ 0 →
  handle_api_calls_events pages_amount = [] ∧
  handle_api_calls get_page pages_amount w = mk_world ∅ (stdout w) (requests w) ∧
  save_data_to_json PARENT_DIR (recipes (handle_api_calls get_page pages_amount w)) files
  = files.
Proof.
  intros Hle. unfold handle_api_calls_events, handle_api_calls.
  rewrite seqZ_nil by done. split; [done|]. split; [done|].
  simpl. unfold save_data_to_json. by rewrite map_to_list_empty.
Qed.

Lemma handle_api_calls_no_pages_witness :
  handle_api_calls_events 0 = [] ∧
  handle_api_calls three_pages 0 empty_world = mk_world ∅ [] [] ∧
  save_data_to_json "/repo" (recipes (handle_api_calls three_pages 0 empty_world)) ∅ = ∅.
Proof. apply (handle_api_calls_no_pages "/repo" three_pages 0 empty_world ∅). lia. Defined.

(** ** Numbers *)

Lemma Pos_iter_xO (p k : positive) : Zpos (Pos.iter xO p k) = Zpos p * 2 ^ Zpos k.
Proof.
  induction k as [|k IH] using Pos.peano_ind.
  - simpl. lia.
  - rewrite Pos.iter_succ, Pos2Z.inj_xO, IH, Pos2Z.inj_succ, Z.pow_succ_r by lia. ring.
Qed.

(** The double of an integer below [2 ^ 53] in absolute value is exact:
    mantissa times power of two gives the integer back. *)
Lemma binary_round_exact (s : bool) (p : positive) :
  Zpos p < 2 ^ 53 →
  ∃ m e,
    binary_round PyNum.prec PyNum.emax s p 0 = S754_finite s m e ∧
    -52 ≤ e ≤ 0 ∧ Zpos m = Zpos p * 2 ^ (- e).
Proof.
  intros Hp.
  pose proof (Zdigits2_bounds p) as [Hlo Hhi].
  set (d := Zpos (digits2_pos p)) in *.
  assert (1 ≤ d) as Hd1 by (unfold d; lia).
  assert (d ≤ 53) as Hd53.
  { destruct (Z.le_gt_cases d 53) as [|Hgt]; [done|].
    assert (2 ^ 53 ≤ 2 ^ (d - 1)) by (apply Z.pow_le_mono_r; lia). lia. }
  unfold binary_round, shl_align. rewrite Z.add_0_r. fold d.
  rewrite fexp_binary64.
  replace (Z.max (d - 53) (-1074) - 0) with (d - 53) by lia.
  replace (Z.max (d - 53) (-1074)) with (d - 53) by lia.
  assert (∃ mz, (match d - 53 with
                 | Zneg k => (Pos.iter xO p k, d - 53)
                 | _ => (p, 0)
                 end) = (mz, d - 53) ∧ Zpos mz = Zpos p * 2 ^ (53 - d))
    as (mz & -> & Hmz).
  { destruct (d - 53) as [|k|k] eqn:Hk; try lia.
    - exists p. split; [done|]. replace (53 - d) with 0 by lia. lia.
    - exists (Pos.iter xO p k). split; [done|].
      rewrite Pos_iter_xO. f_equal. f_equal. lia. }
  assert (2 ^ 52 ≤ Zpos mz < 2 ^ 53) as Hrange.
  { rewrite Hmz.
    assert (2 ^ (d - 1) * 2 ^ (53 - d) = 2 ^ 52) as H1.
    { rewrite <- Z.pow_add_r by lia. f_equal. lia. }
    assert (2 ^ d * 2 ^ (53 - d) = 2 ^ 53) as H2.
    { rewrite <- Z.pow_add_r by lia. f_equal. lia. }
    assert (0 < 2 ^ (53 - d)) by (apply Z.pow_pos_nonneg; lia).
    nia. }
  unfold binary_round_aux.
  rewrite shr_fexp_keep; last first.
  { rewrite (Zdigits2_unique (Zpos mz) 53) by lia. rewrite fexp_binary64. lia. }
  cbn [shr_record_of_loc shr_m loc_of_shr_record round_nearest_even].
  destruct (binary_round_aux_finite s (Zpos mz) (d - 53) Hrange ltac:(lia))
    as (m & Hm & ->).
  injection Hm as <-.
  exists mz, (d - 53). split; [done|]. split; [lia|].
  rewrite Hmz. f_equal. f_equal. lia.
Qed.

Lemma float_of_int_exact (z : Z) :
  Z.abs z < 2 ^ 53 →
  ∃ f, PyNum.float_of_int z = Return f ∧
       py_int (PyNum.PFloat f) = Return z ∧
       PyNum.floor (PyNum.PFloat f) = Return z.
Proof.
  intros Hz. unfold PyNum.float_of_int, binary_normalize.
  destruct z as [|p|p].
  - by eexists.
  - destruct (binary_round_exact false p ltac:(lia)) as (m & e & -> & He & Hm).
    eexists. split; [done|].
    destruct e as [|e|e]; try lia; simpl.
    + simpl in Hm. split; f_equal; lia.
    + change (- Zneg e) with (Zpos e) in Hm. rewrite Hm.
      rewrite Z.div_mul by (apply Z.pow_nonzero; lia). done.
  - destruct (binary_round_exact true p ltac:(lia)) as (m & e & -> & He & Hm).
    eexists. split; [done|].
    destruct e as [|e|e]; try lia; simpl.
    + simpl in Hm. split; f_equal; lia.
    + change (- Zneg e) with (Zpos e) in Hm.
      change (Zneg m) with (- Zpos m). rewrite Hm.
      rewrite Z.div_mul by (apply Z.pow_nonzero; lia).
      replace (- (Zpos p * 2 ^ Zpos e)) with ((- Zpos p) * 2 ^ Zpos e) by ring.
      rewrite Z.div_mul by (apply Z.pow_nonzero; lia). done.
Qed.

(** X11: a [PageTotal] that arrives as a double is converted by [int()]: the
    double of an integer below [2 ^ 53] in absolute value comes back as that
    integer. *)
Theorem get_total_pages_integral_double
    (r : Response.t RecipeIndex.t) (recipe_data : RecipeIndex.t)
    (pagination : Pagination.t) (total : Z) (f : spec_float) :
  Response.json r = Some recipe_data →
  RecipeIndex.Pagination recipe_data = Some pagination →
  Pagination.PageTotal pagination = Some (PyNum.PFloat f) →
  PyNum.float_of_int total = Return f →
  Z.abs total < 2 ^ 53 →
  get_total_pages r = ([GetRecipeIndex], Return total).
Proof.
  intros Hjson Hpag Htotal Hf Hrange. unfold get_total_pages.
  rewrite Hjson, Hpag, Htotal.
  destruct (float_of_int_exact total Hrange) as (f' & Hf' & Hint & _).
  rewrite Hf in Hf'. injection Hf' as <-. by rewrite Hint.
Qed.

Lemma get_total_pages_integral_double_witness :
  get_total_pages (index_of (PyNum.PFloat (S754_finite false 8620171161763840 (-44))))
  = ([GetRecipeIndex], Return 490).
Proof.
  apply (get_total_pages_integral_double _
           (RecipeIndex.mk (Some (Pagination.mk (Some
              (PyNum.PFloat (S754_finite false 8620171161763840 (-44)))))))
           (Pagination.mk (Some (PyNum.PFloat (S754_finite false 8620171161763840 (-44)))))
           490 (S754_finite false 8620171161763840 (-44)));
    reflexivity.
Defined.

(** X12: a factor of 100 leaves the base value as it is and a factor of 0
    gives 0, for a base below [2 ^ 47] in absolute value. *)
Theorem floor_scaled_factor_100 (base : Z) :
  Z.abs base < 2 ^ 47 →
  floor_scaled (PyNum.PInt base) (PyNum.PInt 100) = Return base ∧
  floor_scaled (PyNum.PInt base) (PyNum.PInt 0) = Return 0.
Proof.
  intros Hbase. split.
  - rewrite floor_scaled_int by lia. by rewrite Z.div_mul.
  - rewrite floor_scaled_int by lia. by rewrite Z.mul_0_r.
Qed.

Lemma floor_scaled_factor_100_witness :
  floor_scaled (PyNum.PInt 10920) (PyNum.PInt 100) = Return 10920 ∧
  floor_scaled (PyNum.PInt 10920) (PyNum.PInt 0) = Return 0.
Proof. apply (floor_scaled_factor_100 10920). reflexivity. Defined.

(** ** extract_buff_data *)

(** X13: one returned item that is not a dictionary, or whose ["Bonuses"]
    or one of whose [CP], [Craftsmanship] and [Control] records is there but
    is not a dictionary (a null, say), makes [extract_buff_data] raise
    [AttributeError]: no list is returned, not even of the items before
    it. *)
Theorem extract_buff_data_not_raw
    (post : string → Response.t SearchPage.t) (buff_name : string)
    (page : SearchPage.t) (results : list json) :
  raise_for_status (post buff_name) = Return () →
  Response.json (post buff_name) = Some page →
  SearchPage.Results page = Some results →
  Exists (λ item, is_raw_buff_item item = false) results →
  extract_buff_data post buff_name = ([PostSearch buff_name], Raise AttributeError).
Proof.
  intros Hstatus Hjson Hresults Hex. unfold extract_buff_data.
  rewrite Hstatus, Hjson, Hresults. cbn. by rewrite extract_results_not_raw.
Qed.

Lemma extract_buff_data_not_raw_witness :
  extract_buff_data (λ _, search_of [tea; null_bonuses; soup]) "Meal"
  = ([PostSearch "Meal"], Raise AttributeError).
Proof.
  apply (extract_buff_data_not_raw (λ _, search_of [tea; null_bonuses; soup]) "Meal"
           (SearchPage.mk (Some [tea; null_bonuses; soup])) [tea; null_bonuses; soup]);
    [reflexivity..|].
  right. left. reflexivity.
Defined.

Lemma item_dict_id item hq :
  item_dict item hq !! "id" = Some (default JNull (source_field item "ID")).
Proof. reflexivity. Qed.

Lemma item_dict_keys item hq key :
  is_Some (item_dict item hq !! key) → key ∈ variant_keys.
Proof.
  unfold item_dict, variant_keys. simpl list_to_map.
  rewrite !lookup_insert, lookup_empty.
  repeat (case_decide; [subst; set_solver|]). by intros [? ?].
Qed.

Lemma present_default (v : option json) :
  (if is_None (default JNull v) then None else Some (default JNull v)) = present v.
Proof. by destruct v as [[]|]. Qed.

(** X14: in both variants of a raw buff item, ["id"] and the six bonus keys
    hold the value of the item where the item has one that is not null, and
    are missing otherwise, a null value being dropped like a missing one; no
    key of a variant holds [None], and a variant has no key beyond the nine of
    the dictionary display. *)
Theorem buff_variants_values (item : json) :
  is_raw_buff_item item = true →
  ∃ nq hq,
    buff_variants item = Return [nq; hq] ∧
    ∀ v, v ∈ [nq; hq] →
      v !! "id" = present (source_field item "ID") ∧
      (∀ stat field key, (stat, field, key) ∈ bonus_fields →
         v !! key = present (source_bonus item stat field)) ∧
      (∀ key, v !! key ≠ Some JNull) ∧
      (∀ key, is_Some (v !! key) → key ∈ variant_keys).
Proof.
  intros Hraw. eexists _, _. split; [by apply buff_variants_raw|].
  assert (∀ b,
    drop_None (item_dict item b) !! "id" = present (source_field item "ID") ∧
    (∀ stat field key, (stat, field, key) ∈ bonus_fields →
       drop_None (item_dict item b) !! key = present (source_bonus item stat field)) ∧
    (∀ key, drop_None (item_dict item b) !! key ≠ Some JNull) ∧
    (∀ key, is_Some (drop_None (item_dict item b) !! key) → key ∈ variant_keys))
    as Hvariant.
  { intros b. split; [|split; [|split]].
    - by rewrite drop_None_lookup, item_dict_id, present_default.
    - intros stat field key Hin.
      by rewrite drop_None_lookup, (item_dict_bonus _ _ stat field key Hin),
        present_default.
    - intros key. rewrite drop_None_lookup.
      destruct (item_dict item b !! key) as [[]|]; done.
    - intros key. rewrite drop_None_lookup.
      destruct (item_dict item b !! key) as [x|] eqn:Hx; [|by intros [? ?]].
      intros _. apply (item_dict_keys item b). by rewrite Hx. }
  intros v Hv. rewrite !elem_of_cons, elem_of_nil in Hv.
  destruct Hv as [->|[->|[]]]; apply Hvariant.
Qed.

Lemma buff_variants_values_witness :
  ∃ nq hq,
    buff_variants null_value = Return [nq; hq] ∧
    ∀ v, v ∈ [nq; hq] →
      v !! "id" = present (source_field null_value "ID") ∧
      (∀ stat field key, (stat, field, key) ∈ bonus_fields →
         v !! key = present (source_bonus null_value stat field)) ∧
      (∀ key, v !! key ≠ Some JNull) ∧
      (∀ key, is_Some (v !! key) → key ∈ variant_keys).
Proof. apply (buff_variants_values null_value). reflexivity. Defined.

(** The item with a null [Value]: the key is dropped, its neighbour stays. *)
Example buff_variants_null_value :
  ∃ nq hq,
    buff_variants null_value = Return [nq; hq] ∧
    nq !! "cp_percent" = None ∧ nq !! "cp_value" = Some (jint 12).
Proof. eexists _, _. split; [reflexivity|]. split; reflexivity. Qed.

(** ** Sorting the buffs *)

Lemma buff_key_lacks_id item hq :
  lacks_id item = true → buff_key (drop_None (item_dict item hq)) = Raise KeyError.
Proof.
  intros Hid. unfold buff_key. rewrite drop_None_lookup, item_dict_id.
  unfold lacks_id in Hid. by destruct (source_field item "ID") as [[]|].
Qed.

Lemma buff_key_int_id item hq :
  int_id item = true → ∃ k, buff_key (drop_None (item_dict item hq)) = Return k.
Proof.
  intros Hid. unfold int_id in Hid.
  destruct (source_field item "ID") as [[| |[id|]| | |]|] eqn:Hsrc; try done.
  exists (id, hq). by apply buff_key_item_dict.
Qed.

Lemma buff_keys_lacks_id results :
  Forall (λ item, lacks_id item = true ∨ int_id item = true) results →
  Exists (λ item, lacks_id item = true) results →
  buff_keys (results ≫= item_variants) = Raise KeyError.
Proof.
  induction 1 as [|item results Hitem _ IH]; intros Hex; [by apply Exists_nil in Hex|].
  rewrite bind_cons. unfold item_variants at 1. simpl.
  destruct (lacks_id item) eqn:Hlacks.
  - rewrite !buff_key_lacks_id by done. reflexivity.
  - destruct Hitem as [?|Hint]; [done|].
    destruct (buff_key_int_id item false Hint) as [k1 ->].
    destruct (buff_key_int_id item true Hint) as [k2 ->]. cbn.
    rewrite IH; [reflexivity|]. apply Exists_cons in Hex as [?|?]; [congruence|done].
Qed.

(** X15: when one of the raw buff items returned has no [ID], or a null one,
    and the others have integer identifiers, the key function of the sort
    raises [KeyError]: the main program ends there and writes no file for
    that buff type. *)
Theorem main_buff_lacks_id (PARENT_DIR : string)
    (post : string → Response.t SearchPage.t) (buff_name : string)
    (page : SearchPage.t) (results : list json) (files : gmap string file_content) :
  raise_for_status (post buff_name) = Return () →
  Response.json (post buff_name) = Some page →
  SearchPage.Results page = Some results →
  Forall (λ item, is_raw_buff_item item = true) results →
  Forall (λ item, lacks_id item = true ∨ int_id item = true) results →
  Exists (λ item, lacks_id item = true) results →
  persisted_buffs post buff_name = Raise KeyError ∧
  main_buff PARENT_DIR post buff_name files = Raise KeyError.
Proof.
  intros Hstatus Hjson Hresults Hraw Hids Hex.
  assert (persisted_buffs post buff_name = Raise KeyError) as Hpersisted.
  { unfold persisted_buffs, extract_buff_data. rewrite Hstatus, Hjson, Hresults. cbn.
    rewrite extract_results_raw by done. cbn. unfold sorted_buffs.
    by rewrite buff_keys_lacks_id. }
  split; [done|]. unfold main_buff. by rewrite Hpersisted.
Qed.

Lemma main_buff_lacks_id_witness :
  persisted_buffs (λ _, search_of [tea; no_id]) "Meal" = Raise KeyError ∧
  main_buff "/repo" (λ _, search_of [tea; no_id]) "Meal" ∅ = Raise KeyError.
Proof.
  apply (main_buff_lacks_id "/repo" (λ _, search_of [tea; no_id]) "Meal"
           (SearchPage.mk (Some [tea; no_id])) [tea; no_id] ∅);
    [reflexivity | reflexivity | reflexivity | | |].
  - repeat constructor.
  - constructor; [by right|]. constructor; [by left|]. constructor.
  - right. left. reflexivity.
Defined.

(** ** sorted, once more *)

Section StableFacts.
Context {A K : Type} `{EqDecision K} (lt : K → K → bool) (key : A → K).
Hypothesis lt_irrefl : ∀ k, lt k k = false.

Lemma sorted_insert_filter x l k :
  filter (λ y, key y = k) (sorted_insert lt key x l) = filter (λ y, key y = k) (x :: l).
Proof.
  induction l as [|y l IH]; simpl; [done|].
  destruct (lt (key y) (key x)) eqn:Hlt; [|done].
  rewrite (filter_cons _ y), IH, !(filter_cons _ x), (filter_cons _ y).
  destruct (decide (key x = k)) as [Hx|Hx], (decide (key y = k)) as [Hy|Hy]; try done.
  rewrite Hx, Hy, lt_irrefl in Hlt. done.
Qed.

Lemma sorted_filter l k :
  filter (λ y, key y = k) (sorted lt key l) = filter (λ y, key y = k) l.
Proof.
  induction l as [|x l IH]; simpl; [done|].
  by rewrite sorted_insert_filter, !filter_cons, IH.
Qed.

Lemma sorted_fixed l :
  StronglySorted (λ a b, lt (key b) (key a) = false) l → sorted lt key l = l.
Proof.
  induction 1 as [|x l Hsorted IH Hall]; simpl; [done|].
  rewrite IH. destruct l as [|y l]; simpl; [done|].
  apply Forall_inv in Hall. by rewrite Hall.
Qed.
End StableFacts.

Lemma StronglySorted_weaken {A} (R1 R2 : relation A) l :
  (∀ x y, R1 x y → R2 x y) → StronglySorted R1 l → StronglySorted R2 l.
Proof.
  intros Himpl. induction 1 as [|x l Hsorted IH Hall]; constructor; [done|].
  eapply Forall_impl; [exact Hall|]. intros y. apply Himpl.
Qed.

(** ** save_data_to_json, once more *)

(** X16: the sort is stable: in the file of a category, the records that
    share an identifier stand in the order in which the category listed
    them. *)
Theorem save_data_to_json_stable (PARENT_DIR : string)
    (recipes : gmap string (list RecipeType.t)) (files : gmap string file_content)
    (class_job : string) (class_recipes : list RecipeType.t) :
  recipes !! class_job = Some class_recipes →
  ∃ written,
    save_data_to_json PARENT_DIR recipes files !! recipe_path PARENT_DIR class_job
    = Some (RecipeFile written) ∧
    ∀ id, filter (λ r, RecipeType.id r = id) written
          = filter (λ r, RecipeType.id r = id) class_recipes.
Proof.
  intros Hlookup. exists (sorted Z.ltb RecipeType.id class_recipes). split.
  - apply (save_items_lookup PARENT_DIR (map_to_list recipes)).
    + apply NoDup_fst_map_to_list.
    + by apply elem_of_map_to_list.
  - intros id. apply sorted_filter. apply Z.ltb_irrefl.
Qed.

Lemma save_data_to_json_stable_witness :
  ∃ written,
    save_data_to_json "/repo" twice_listed ∅ !! recipe_path "/repo" "Culinarian"
    = Some (RecipeFile written) ∧
    ∀ id, filter (λ r, RecipeType.id r = id) written
          = filter (λ r, RecipeType.id r = id) [sample_out; sample_out].
Proof. apply (save_data_to_json_stable "/repo" twice_listed ∅ "Culinarian"). reflexivity. Defined.

(** X17: a category whose records are already in ascending order of [id]
    is written as it is. *)
Theorem save_data_to_json_sorted_input (PARENT_DIR : string)
    (recipes : gmap string (list RecipeType.t)) (files : gmap string file_content)
    (class_job : string) (class_recipes : list RecipeType.t) :
  recipes !! class_job = Some class_recipes →
  StronglySorted (λ a b, RecipeType.id a ≤ RecipeType.id b) class_recipes →
  save_data_to_json PARENT_DIR recipes files !! recipe_path PARENT_DIR class_job
  = Some (RecipeFile class_recipes).
Proof.
  intros Hlookup Hsorted.
  assert (sorted Z.ltb RecipeType.id class_recipes = class_recipes) as Hfixed.
  { apply sorted_fixed. eapply StronglySorted_weaken; [|exact Hsorted].
    intros a b Hab. simpl. by apply Z.ltb_ge. }
  rewrite <- Hfixed.
  apply (save_items_lookup PARENT_DIR (map_to_list recipes)).
  - apply NoDup_fst_map_to_list.
  - by apply elem_of_map_to_list.
Qed.

Lemma save_data_to_json_sorted_input_witness :
  save_data_to_json "/repo" twice_listed ∅ !! recipe_path "/repo" "Culinarian"
  = Some (RecipeFile [sample_out; sample_out]).
Proof.
  apply (save_data_to_json_sorted_input "/repo" twice_listed ∅ "Culinarian").
  - reflexivity.
  - repeat constructor; simpl; lia.
Defined.

(** X18: [save_data_to_json] writes the files of the categories of its
    input and touches no other path: a file that is there, of a category of
    an earlier run say, is neither removed nor changed. *)
Theorem save_data_to_json_other (PARENT_DIR : string)
    (recipes : gmap string (list RecipeType.t)) (files : gmap string file_content)
    (path : string) :
  (∀ class_job, is_Some (recipes !! class_job) → recipe_path PARENT_DIR class_job ≠ path) →
  save_data_to_json PARENT_DIR recipes files !! path = files !! path.
Proof.
  intros Hother. apply save_items_other.
  intros [class_job class_recipes] Hin. apply Hother.
  apply elem_of_map_to_list in Hin. by eexists.
Qed.

Lemma save_data_to_json_other_witness :
  save_data_to_json "/repo" twice_listed
    {[recipe_path "/repo" "Weaver" := RecipeFile [sample_out]]}
    !! recipe_path "/repo" "Weaver"
  = ({[recipe_path "/repo" "Weaver" := RecipeFile [sample_out]]}
       : gmap string file_content) !! recipe_path "/repo" "Weaver".
Proof.
  apply (save_data_to_json_other "/repo" twice_listed).
  intros class_job [l Hl] Hpath.
  apply (recipe_path_inj "/repo") in Hpath. subst class_job.
  vm_compute in Hl. discriminate Hl.
Defined.

Lemma buff_path_inj (PARENT_DIR : string) : Inj (=) (=) (buff_path PARENT_DIR).
Proof.
  intros b1 b2. unfold buff_path. intros Heq.
  apply (inj (String.append PARENT_DIR)) in Heq.
  apply (inj (String.append "/app/data/buffs/")) in Heq.
  by apply string_app_inj_r in Heq.
Qed.

Lemma recipe_path_not_buff_path (PARENT_DIR class_job buff_name : string) :
  recipe_path PARENT_DIR class_job ≠ buff_path PARENT_DIR buff_name.
Proof.
  unfold recipe_path, buff_path. intros Heq.
  apply (inj (String.append PARENT_DIR)) in Heq.
  change ("/app/data/recipedb/" +:+ class_job +:+ ".json")
    with ("/app/data/" +:+ "recipedb/" +:+ class_job +:+ ".json") in Heq.
  change ("/app/data/buffs/" +:+ buff_name +:+ ".json")
    with ("/app/data/" +:+ "buffs/" +:+ buff_name +:+ ".json") in Heq.
  apply (inj (String.append "/app/data/")) in Heq.
  discriminate Heq.
Qed.

(** X19: the paths are distinct as strings: two category keys never share a
    file, nor do two buff types, and the file of a buff type is never the
    file of a category, so that [save_buffs_to_file] leaves every recipe file
    as it is. *)
Theorem paths_distinct (PARENT_DIR : string) :
  (∀ k1 k2, recipe_path PARENT_DIR k1 = recipe_path PARENT_DIR k2 → k1 = k2) ∧
  (∀ b1 b2, buff_path PARENT_DIR b1 = buff_path PARENT_DIR b2 → b1 = b2) ∧
  (∀ buffs buff_name files class_job,
     save_buffs_to_file PARENT_DIR buffs buff_name files
       !! recipe_path PARENT_DIR class_job
     = files !! recipe_path PARENT_DIR class_job).
Proof.
  split; [apply recipe_path_inj|]. split; [apply buff_path_inj|].
  intros buffs buff_name files class_job. unfold save_buffs_to_file.
  apply lookup_insert_ne. intros Heq.
  by apply (recipe_path_not_buff_path PARENT_DIR class_job buff_name).
Qed.

(** ** handle_api_calls, once more *)

Lemma joined_joins threads : joined (Join <$> threads) = threads.
Proof.
  induction threads as [|t threads IH]; [done|].
  change (joined (Join <$> t :: threads)) with (t :: joined (Join <$> threads)).
  by rewrite IH.
Qed.

Lemma joined_app events1 events2 :
  joined (events1 ++ events2) = joined events1 ++ joined events2.
Proof. apply omap_app. Qed.

Lemma joined_loop pages threads :
  joined (handle_api_calls_loop pages threads) = threads ++ pages.
Proof.
  revert threads. induction pages as [|i pages IH]; intros threads; simpl.
  - by rewrite joined_joins, app_nil_r.
  - change (joined (Start i :: ?events)) with (joined events).
    case_bool_decide.
    + by rewrite joined_app, joined_joins, IH, <- app_assoc.
    + by rewrite IH, <- app_assoc.
Qed.

Lemma joins_started_app running events1 events2 :
  joins_started running (events1 ++ events2) ↔
  joins_started running events1 ∧
  joins_started (in_flight_from running events1) events2.
Proof.
  revert running. induction events1 as [|e events1 IH]; intros running; simpl.
  - tauto.
  - rewrite IH. unfold in_flight_from. simpl. tauto.
Qed.

Lemma joins_started_joins running threads :
  NoDup threads → (∀ x, x ∈ threads → x ∈ running) →
  joins_started running (Join <$> threads).
Proof.
  intros Hnodup. revert running.
  induction Hnodup as [|t threads Hfresh Hnodup IH]; intros running Hsub; [done|].
  split; [apply Hsub; by left|].
  apply IH. intros x Hx. simpl. apply list_elem_of_filter. split.
  - intros ->. done.
  - apply Hsub. by right.
Qed.

Lemma joins_started_loop pages threads :
  NoDup (threads ++ pages) →
  joins_started threads (handle_api_calls_loop pages threads).
Proof.
  revert threads. induction pages as [|i pages IH]; intros threads Hnodup; simpl.
  - rewrite app_nil_r in Hnodup. by apply joins_started_joins.
  - split; [done|].
    assert (NoDup ((threads ++ [i]) ++ pages)) as Hnodup'
      by by rewrite <- app_assoc.
    case_bool_decide.
    + apply joins_started_app. split.
      * apply joins_started_joins; [|done]. by apply NoDup_app in Hnodup' as [? _].
      * rewrite in_flight_joins by done. apply IH.
        by apply NoDup_app in Hnodup' as (_ & _ & ?).
    + by apply IH.
Qed.

(** X20: every page from 1 to [pages_amount] is joined once, in page order,
    and only threads that have been started and not yet joined are joined. *)
Theorem handle_api_calls_joins (pages_amount : Z) :
  let events := handle_api_calls_events pages_amount in
  joined events = seqZ 1 pages_amount ∧
  (∀ p i s, events = p ++ Join i :: s → i ∈ in_flight p).
Proof.
  intros events. split.
  - unfold events, handle_api_calls_events. by rewrite joined_loop.
  - intros p i s Hsplit.
    assert (joins_started [] events) as Hjoins.
    { apply joins_started_loop. simpl. apply NoDup_seqZ. }
    rewrite Hsplit in Hjoins. apply joins_started_app in Hjoins as [_ [Hin _]].
    exact Hin.
Qed.

(** ** The main program *)

(** X21: when the page count cannot be read (the body is not JSON, a key is
    missing, the number is NaN or infinite), the exception of
    [get_total_pages] ends the program: no page is requested, no search is
    made and no file is written. *)
Theorem main_without_page_count (PARENT_DIR : string)
    (get_index : Response.t RecipeIndex.t) (get_page : Z → Response.t RecipePage.t)
    (post : string → Response.t SearchPage.t) (files : gmap string file_content)
    (e : exn) :
  (get_total_pages get_index).2 = Raise e →
  main PARENT_DIR get_index get_page post files
  = mk_run [GetRecipeIndex] [] files (Raise e).
Proof.
  intros Hraise. unfold main.
  destruct (get_total_pages get_index) as [sent pages] eqn:Hpages.
  assert (sent = [GetRecipeIndex]) as -> by by inversion Hpages.
  simpl in Hraise. by rewrite Hraise.
Qed.

Lemma main_without_page_count_witness :
  main "/repo" (Response.mk 200 (Some (RecipeIndex.mk None))) three_pages
    (λ _, search_of [tea]) ∅
  = mk_run [GetRecipeIndex] [] ∅ (Raise KeyError).
Proof.
  apply (main_without_page_count "/repo" (Response.mk 200 (Some (RecipeIndex.mk None)))).
  reflexivity.
Defined.

Lemma main_recipes_requests get_page pages_amount :
  requests (handle_api_calls get_page pages_amount (mk_world ∅ [] [GetRecipeIndex]))
  = GetRecipeIndex :: (GetRecipePage <$> seqZ 1 pages_amount).
Proof. unfold handle_api_calls. by rewrite run_pages_requests. Qed.

(** X22: the recipe files are written before the buffs are fetched.  When
    the first buff type, ["Medicine"], fails (the search answers with an
    error status, an item is malformed, an identifier is missing), the
    program ends with that exception after the search request: the recipe
    files of the run are on disk, no buff file is written and ["Meal"] is not
    searched. *)
Theorem main_medicine_fails (PARENT_DIR : string)
    (get_index : Response.t RecipeIndex.t) (get_page : Z → Response.t RecipePage.t)
    (post : string → Response.t SearchPage.t) (files : gmap string file_content)
    (pages_amount : Z) (e : exn) :
  (get_total_pages get_index).2 = Return pages_amount →
  persisted_buffs post "Medicine" = Raise e →
  let w := handle_api_calls get_page pages_amount (mk_world ∅ [] [GetRecipeIndex]) in
  main PARENT_DIR get_index get_page post files
  = mk_run
      (GetRecipeIndex :: (GetRecipePage <$> seqZ 1 pages_amount) ++ [PostSearch "Medicine"])
      (stdout w)
      (save_data_to_json PARENT_DIR (recipes w) files)
      (Raise e).
Proof.
  intros Hpages Hraise w. unfold main.
  destruct (get_total_pages get_index) as [sent pages] eqn:Htotal.
  assert (sent = [GetRecipeIndex]) as -> by by inversion Htotal.
  simpl in Hpages. rewrite Hpages. fold w.
  unfold buff_types. cbn [main_buffs]. rewrite Hraise.
  unfold w. by rewrite main_recipes_requests.
Qed.

Lemma main_medicine_fails_witness :
  main "/repo" (index_of (PyNum.PInt 3)) three_pages (λ _, failing_search) ∅
  = mk_run
      (GetRecipeIndex :: (GetRecipePage <$> seqZ 1 3) ++ [PostSearch "Medicine"])
      (stdout (handle_api_calls three_pages 3 (mk_world ∅ [] [GetRecipeIndex])))
      (save_data_to_json "/repo"
         (recipes (handle_api_calls three_pages 3 (mk_world ∅ [] [GetRecipeIndex]))) ∅)
      (Raise HTTPError).
Proof.
  apply (main_medicine_fails "/repo" (index_of (PyNum.PInt 3)) three_pages
           (λ _, failing_search) ∅ 3 HTTPError);
    reflexivity.
Defined.

(** X23: when the page count is read and both buff types are extracted and
    sorted, the program ends normally; it has requested the index, the pages
    1 to [pages_amount] and the two searches, in this order; the two buff
    files hold the sorted lists, and every category of the dictionary has its
    file with its records sorted, which the buff files have not disturbed. *)
Theorem main_succeeds (PARENT_DIR : string)
    (get_index : Response.t RecipeIndex.t) (get_page : Z → Response.t RecipePage.t)
    (post : string → Response.t SearchPage.t) (files : gmap string file_content)
    (pages_amount : Z) (medicine meal : list (gmap string json)) :
  (get_total_pages get_index).2 = Return pages_amount →
  persisted_buffs post "Medicine" = Return medicine →
  persisted_buffs post "Meal" = Return meal →
  let w := handle_api_calls get_page pages_amount (mk_world ∅ [] [GetRecipeIndex]) in
  let r := main PARENT_DIR get_index get_page post files in
  run_outcome r = Return () ∧
  run_requests r
  = GetRecipeIndex :: (GetRecipePage <$> seqZ 1 pages_amount)
      ++ [PostSearch "Medicine"; PostSearch "Meal"] ∧
  run_stdout r = stdout w ∧
  run_files r !! buff_path PARENT_DIR "Medicine" = Some (BuffFile medicine) ∧
  run_files r !! buff_path PARENT_DIR "Meal" = Some (BuffFile meal) ∧
  (∀ class_job class_recipes,
     recipes w !! class_job = Some class_recipes →
     run_files r !! recipe_path PARENT_DIR class_job
     = Some (RecipeFile (sorted Z.ltb RecipeType.id class_recipes))).
Proof.
  intros Hpages Hmedicine Hmeal w r.
  assert (r = mk_run
    (GetRecipeIndex :: (GetRecipePage <$> seqZ 1 pages_amount)
       ++ [PostSearch "Medicine"; PostSearch "Meal"])
    (stdout w)
    (save_buffs_to_file PARENT_DIR meal "Meal"
       (save_buffs_to_file PARENT_DIR medicine "Medicine"
          (save_data_to_json PARENT_DIR (recipes w) files)))
    (Return ())) as ->.
  { unfold r, main.
    destruct (get_total_pages get_index) as [sent pages] eqn:Htotal.
    assert (sent = [GetRecipeIndex]) as -> by by inversion Htotal.
    simpl in Hpages. rewrite Hpages. fold w.
    unfold buff_types. cbn [main_buffs]. rewrite Hmedicine, Hmeal.
    unfold w. rewrite main_recipes_requests. simpl. by rewrite <- app_assoc. }
  simpl. split; [done|]. split; [done|]. split; [done|].
  split; [|split].
  - unfold save_buffs_to_file. rewrite lookup_insert_ne, lookup_insert_eq; [done|].
    intros Heq. by apply (buff_path_inj PARENT_DIR) in Heq.
  - unfold save_buffs_to_file. by rewrite lookup_insert_eq.
  - intros class_job class_recipes Hlookup. unfold save_buffs_to_file.
    rewrite !lookup_insert_ne
      by (intros Heq; symmetry in Heq;
          by apply recipe_path_not_buff_path in Heq).
    apply (save_items_lookup PARENT_DIR (map_to_list (recipes w))).
    + apply NoDup_fst_map_to_list.
    + by apply elem_of_map_to_list.
Qed.

Lemma main_succeeds_witness :
  let w := handle_api_calls three_pages 3 (mk_world ∅ [] [GetRecipeIndex]) in
  let r := main "/repo" (index_of (PyNum.PInt 3)) three_pages
             (λ _, search_of [tea; soup]) ∅ in
  ∃ medicine meal,
    persisted_buffs (λ _, search_of [tea; soup]) "Medicine" = Return medicine ∧
    persisted_buffs (λ _, search_of [tea; soup]) "Meal" = Return meal ∧
    run_outcome r = Return () ∧
    run_requests r
    = GetRecipeIndex :: (GetRecipePage <$> seqZ 1 3)
        ++ [PostSearch "Medicine"; PostSearch "Meal"] ∧
    run_stdout r = stdout w ∧
    run_files r !! buff_path "/repo" "Medicine" = Some (BuffFile medicine) ∧
    run_files r !! buff_path "/repo" "Meal" = Some (BuffFile meal) ∧
    (∀ class_job class_recipes,
       recipes w !! class_job = Some class_recipes →
       run_files r !! recipe_path "/repo" class_job
       = Some (RecipeFile (sorted Z.ltb RecipeType.id class_recipes))).
Proof.
  intros w r. eexists _, _. split; [reflexivity|]. split; [reflexivity|].
  apply (main_succeeds "/repo" (index_of (PyNum.PInt 3)) three_pages
           (λ _, search_of [tea; soup]) ∅ 3);
    reflexivity.
Defined.
